(** * DreamStream: the recording / analysis / display state machine

    A shallow embedding of the TypeScript sources:
      - [types]                         (DreamAnalysis, ImageSize, ChatMessage, DreamState)
      - [services/geminiService]        (analyzeDreamAudio, generateDreamImage, DreamChatSession)
      - [App]                           (handleRecordingComplete, reset, setImageSize)
      - [components/AudioRecorder.tsx]  (startRecording, stopRecording, the onstop handler)
      - [components/ChatInterface.tsx]  (handleSend)

    Asynchronous functions are cut at their [await]s: what runs between two
    suspension points is one function, and the value (or exception) an awaited
    call settles with is an argument of the function that resumes.  State held
    by React ([useState]) is threaded explicitly; a [setState(prev => ...)] is the
    function it passes.  Strings are byte strings holding UTF-8 text. *)

From Stdlib Require Import String Ascii List Bool Arith Lia.
From Stdlib Require DecimalString DecimalNat.
Import ListNotations.
Open Scope string_scope.

(* ================================================================== *)
(** ** JavaScript values used by the program *)
(* ================================================================== *)

Module Js.

(** A thrown value: an [Error] object with its [name] and [message] (a
    thrown value without a message is one whose message is empty: [||]
    treats both alike). *)
Record Exn := mkExn { exn_name : string; message : string }.

(** [new Error(msg)] *)
Definition Error (msg : string) : Exn := mkExn "Error" msg.
Definition SyntaxError (msg : string) : Exn := mkExn "SyntaxError" msg.
Definition TypeError (msg : string) : Exn := mkExn "TypeError" msg.

(** How a call ends: it returns, or it throws (a rejected promise, once
    awaited, throws in the caller). *)
Inductive Completion (A : Type) : Type :=
| Returned (a : A)
| Threw (e : Exn).
Arguments Returned {A} a.
Arguments Threw {A} e.

Definition bind {A B} (c : Completion A) (k : A -> Completion B) : Completion B :=
  match c with
  | Returned a => k a
  | Threw e => Threw e
  end.

(** Truthiness of a [string | undefined]: [undefined] and [""] are falsy. *)
Definition truthy (t : option string) : bool :=
  match t with
  | Some s => negb (s =? "")
  | None => false
  end.

(** [t || d] for a [string | undefined] on the left. *)
Definition or_else (t : option string) (d : string) : string :=
  match t with
  | Some s => if s =? "" then d else s
  | None => d
  end.

(** A template literal prints [undefined] as the nine letters. *)
Definition interpolate (t : option string) : string :=
  match t with
  | Some s => s
  | None => "undefined"
  end.

Definition bytes (l : list nat) : string :=
  fold_right (fun n s => String (ascii_of_nat n) s) EmptyString l.

(** The double quote, as a one-character string. *)
Definition dq : string := String (ascii_of_nat 34) EmptyString.

Fixpoint strip_prefix (p s : string) : option string :=
  match p, s with
  | EmptyString, _ => Some s
  | String a p', String b s' => if Ascii.eqb a b then strip_prefix p' s' else None
  | String _ _, EmptyString => None
  end.

Fixpoint strip_any (pats : list string) (s : string) : option string :=
  match pats with
  | [] => None
  | p :: pats' =>
      match strip_prefix p s with
      | Some r => Some r
      | None => strip_any pats' s
      end
  end.

Fixpoint rev_string (s : string) : string :=
  match s with
  | EmptyString => EmptyString
  | String c r => rev_string r ++ String c EmptyString
  end.

(** ECMAScript WhiteSpace and LineTerminator code points, as UTF-8:
    TAB LF VT FF CR SP, NBSP, U+1680, U+2000..U+200A, U+2028, U+2029,
    U+202F, U+205F, U+3000, U+FEFF. *)
Definition whitespace : list string :=
  map bytes
    [ [9]; [10]; [11]; [12]; [13]; [32];
      [194; 160];
      [225; 154; 128];
      [226; 128; 128]; [226; 128; 129]; [226; 128; 130]; [226; 128; 131];
      [226; 128; 132]; [226; 128; 133]; [226; 128; 134]; [226; 128; 135];
      [226; 128; 136]; [226; 128; 137]; [226; 128; 138];
      [226; 128; 168]; [226; 128; 169]; [226; 128; 175];
      [226; 129; 159];
      [227; 128; 128];
      [239; 187; 191] ].

(** Strip leading occurrences of the patterns; every round removes at least
    one byte, so [String.length s] rounds are enough. *)
Fixpoint strip_loop (pats : list string) (fuel : nat) (s : string) : string :=
  match fuel with
  | 0 => s
  | S fuel' =>
      match strip_any pats s with
      | Some r => strip_loop pats fuel' r
      | None => s
      end
  end.

Definition trimStart (s : string) : string :=
  strip_loop whitespace (String.length s) s.

Definition trimEnd (s : string) : string :=
  rev_string (strip_loop (map rev_string whitespace) (String.length s) (rev_string s)).

(** [String.prototype.trim] *)
Definition trim (s : string) : string := trimEnd (trimStart s).

(** A string made of white space only (possibly empty). *)
Inductive WhitespaceOnly : string -> Prop :=
| ws_empty : WhitespaceOnly ""
| ws_more w s : In w whitespace -> WhitespaceOnly s -> WhitespaceOnly (w ++ s).

(** [s.split(',')[1]]: the text between the first and the second comma,
    [undefined] when [s] has no comma. *)
Fixpoint upto_comma (s : string) : string :=
  match s with
  | EmptyString => EmptyString
  | String c r => if Ascii.eqb c "," then EmptyString else String c (upto_comma r)
  end.

Fixpoint split_comma_1 (s : string) : option string :=
  match s with
  | EmptyString => None
  | String c r => if Ascii.eqb c "," then Some (upto_comma r) else split_comma_1 r
  end.

End Js.

Import Js.

(* ================================================================== *)
(** ** JSON values and [JSON.parse] *)
(* ================================================================== *)

Module Json.

Local Open Scope nat_scope.
Set Warnings "-register-all".

(** A parsed JSON text.  A number keeps its lexeme (the program never
    computes with one). *)
Inductive json : Type :=
| JNull
| JBool (b : bool)
| JNumber (lexeme : string)
| JString (s : string)
| JArray (items : list json)
| JObject (members : list (string * json)).

Definition is_ws (c : ascii) : bool :=
  let n := nat_of_ascii c in
  (n =? 32) || (n =? 9) || (n =? 10) || (n =? 13).

Fixpoint skip_ws (s : string) : string :=
  match s with
  | String c r => if is_ws c then skip_ws r else s
  | EmptyString => s
  end.

Definition is_digit (c : ascii) : bool :=
  let n := nat_of_ascii c in (48 <=? n) && (n <=? 57).

Fixpoint span_digits (s : string) : string * string :=
  match s with
  | String c r =>
      if is_digit c
      then let (d, t) := span_digits r in (String c d, t)
      else (EmptyString, s)
  | EmptyString => (EmptyString, s)
  end.

(** An optional minus sign; an integer part without a leading zero;
    an optional fraction; an optional exponent. *)
Definition lex_int (s : string) : option (string * string) :=
  match s with
  | String c r =>
      if Ascii.eqb c "0" then Some ("0", r)
      else if is_digit c then let (d, t) := span_digits r in Some (String c d, t)
      else None
  | EmptyString => None
  end.

Definition lex_frac (s : string) : option (string * string) :=
  match s with
  | String "." r =>
      match span_digits r with
      | (EmptyString, _) => None
      | (d, t) => Some (String "." d, t)
      end
  | _ => Some (EmptyString, s)
  end.

Definition lex_digits1 (s : string) : option (string * string) :=
  match span_digits s with
  | (EmptyString, _) => None
  | (d, t) => Some (d, t)
  end.

Definition lex_exp (s : string) : option (string * string) :=
  match s with
  | String c r =>
      if Ascii.eqb c "e" || Ascii.eqb c "E" then
        match r with
        | String sg r' =>
            if Ascii.eqb sg "+" || Ascii.eqb sg "-" then
              match lex_digits1 r' with
              | Some (d, t) => Some (String c (String sg d), t)
              | None => None
              end
            else
              match lex_digits1 r with
              | Some (d, t) => Some (String c d, t)
              | None => None
              end
        | EmptyString => None
        end
      else Some (EmptyString, s)
  | EmptyString => Some (EmptyString, s)
  end.

Definition lex_number (s : string) : option (string * string) :=
  let (sign, s1) :=
    match s with
    | String "-" r => ("-", r)
    | _ => (EmptyString, s)
    end in
  match lex_int s1 with
  | None => None
  | Some (i, s2) =>
      match lex_frac s2 with
      | None => None
      | Some (f, s3) =>
          match lex_exp s3 with
          | None => None
          | Some (e, s4) => Some (sign ++ i ++ f ++ e, s4)
          end
      end
  end.

Definition hex_digit (c : ascii) : option nat :=
  let n := nat_of_ascii c in
  if (48 <=? n) && (n <=? 57) then Some (n - 48)
  else if (97 <=? n) && (n <=? 102) then Some (n - 87)
  else if (65 <=? n) && (n <=? 70) then Some (n - 55)
  else None.

Definition hex4 (a b c d : ascii) : option nat :=
  match hex_digit a, hex_digit b, hex_digit c, hex_digit d with
  | Some x, Some y, Some z, Some w => Some (((x * 16 + y) * 16 + z) * 16 + w)
  | _, _, _, _ => None
  end.

(** The UTF-8 bytes of a 16-bit code unit. *)
Definition utf8 (n : nat) : string :=
  if n <? 128 then bytes [n]
  else if n <? 2048 then bytes [192 + n / 64; 128 + n mod 64]
  else bytes [224 + n / 4096; 128 + (n / 64) mod 64; 128 + n mod 64].

Definition simple_escape (c : ascii) : option ascii :=
  let n := nat_of_ascii c in
  if n =? 34 then Some c                       (* quote *)
  else if n =? 92 then Some c                  (* backslash *)
  else if n =? 47 then Some c                  (* slash *)
  else if n =? 98 then Some (ascii_of_nat 8)   (* b: backspace *)
  else if n =? 102 then Some (ascii_of_nat 12) (* f: form feed *)
  else if n =? 110 then Some (ascii_of_nat 10) (* n: line feed *)
  else if n =? 114 then Some (ascii_of_nat 13) (* r: carriage return *)
  else if n =? 116 then Some (ascii_of_nat 9)  (* t: tab *)
  else None.

Definition prepend (p : string) (r : option (string * string)) : option (string * string) :=
  match r with
  | Some (body, rest) => Some (p ++ body, rest)
  | None => None
  end.

(** The characters of a string literal, after its opening quote. *)
Fixpoint lex_string (s : string) : option (string * string) :=
  match s with
  | EmptyString => None
  | String c r =>
      if nat_of_ascii c =? 34 then Some (EmptyString, r)
      else if nat_of_ascii c =? 92 then
        match r with
        | EmptyString => None
        | String e r' =>
            match simple_escape e with
            | Some ch => prepend (String ch EmptyString) (lex_string r')
            | None =>
                if nat_of_ascii e =? 117 then
                  match r' with
                  | String h1 (String h2 (String h3 (String h4 r''))) =>
                      match hex4 h1 h2 h3 h4 with
                      | Some n => prepend (utf8 n) (lex_string r'')
                      | None => None
                      end
                  | _ => None
                  end
                else None
            end
        end
      else if nat_of_ascii c <? 32 then None
      else prepend (String c EmptyString) (lex_string r)
  end.

Definition starts_number (c : ascii) : bool :=
  is_digit c || Ascii.eqb c "-".

(** Recursive descent; every recursive call is made on a strictly
    shorter input, so fuel above the length of the text is enough. *)
Fixpoint parse_value (fuel : nat) (s : string) : option (json * string) :=
  match fuel with
  | 0 => None
  | S fuel' =>
      match skip_ws s with
      | EmptyString => None
      | String c r =>
          if Ascii.eqb c "{" then
            match skip_ws r with
            | String "}" r' => Some (JObject [], r')
            | _ =>
                match parse_members fuel' r with
                | Some (ms, r') => Some (JObject ms, r')
                | None => None
                end
            end
          else if Ascii.eqb c "[" then
            match skip_ws r with
            | String "]" r' => Some (JArray [], r')
            | _ =>
                match parse_elements fuel' r with
                | Some (vs, r') => Some (JArray vs, r')
                | None => None
                end
            end
          else if nat_of_ascii c =? 34 then
            match lex_string r with
            | Some (str, r') => Some (JString str, r')
            | None => None
            end
          else if starts_number c then
            match lex_number (String c r) with
            | Some (lx, r') => Some (JNumber lx, r')
            | None => None
            end
          else
            match strip_prefix "true" (String c r) with
            | Some r' => Some (JBool true, r')
            | None =>
                match strip_prefix "false" (String c r) with
                | Some r' => Some (JBool false, r')
                | None =>
                    match strip_prefix "null" (String c r) with
                    | Some r' => Some (JNull, r')
                    | None => None
                    end
                end
            end
      end
  end

with parse_members (fuel : nat) (s : string) : option (list (string * json) * string) :=
  match fuel with
  | 0 => None
  | S fuel' =>
      match skip_ws s with
      | String c r =>
          if nat_of_ascii c =? 34 then
            match lex_string r with
            | None => None
            | Some (key, r1) =>
                match skip_ws r1 with
                | String ":" r2 =>
                    match parse_value fuel' r2 with
                    | None => None
                    | Some (v, r3) =>
                        match skip_ws r3 with
                        | String "," r4 =>
                            match parse_members fuel' r4 with
                            | Some (ms, r5) => Some ((key, v) :: ms, r5)
                            | None => None
                            end
                        | String "}" r4 => Some ([(key, v)], r4)
                        | _ => None
                        end
                    end
                | _ => None
                end
            end
          else None
      | EmptyString => None
      end
  end

with parse_elements (fuel : nat) (s : string) : option (list json * string) :=
  match fuel with
  | 0 => None
  | S fuel' =>
      match parse_value fuel' s with
      | None => None
      | Some (v, r1) =>
          match skip_ws r1 with
          | String "," r2 =>
              match parse_elements fuel' r2 with
              | Some (vs, r3) => Some (v :: vs, r3)
              | None => None
              end
          | String "]" r2 => Some ([v], r2)
          | _ => None
          end
      end
  end.

(** [JSON.parse(text)]: [None] stands for the [SyntaxError] it throws. *)
Definition parse (text : string) : option json :=
  match parse_value (2 * String.length text + 2) text with
  | Some (v, rest) =>
      match skip_ws rest with
      | EmptyString => Some v
      | String _ _ => None
      end
  | None => None
  end.

(** The message of the [SyntaxError]; engines word it differently. *)
Definition syntax_error_message : string := "Unexpected token in JSON".

Definition JSON_parse (text : string) : Completion json :=
  match parse text with
  | Some v => Returned v
  | None => Threw (SyntaxError syntax_error_message)
  end.

(** Own property of an object; a later duplicate key overrides an earlier one. *)
Fixpoint lookup (key : string) (ms : list (string * json)) : option json :=
  match ms with
  | [] => None
  | (k, v) :: ms' =>
      match lookup key ms' with
      | Some v' => Some v'
      | None => if String.eqb k key then Some v else None
      end
  end.

(** [v.key] for one of the four field names of a DreamAnalysis: reading a
    property of [null] throws, a primitive or an array has no such
    property ([undefined], here [None]). *)
Definition get (v : json) (key : string) : Completion (option json) :=
  match v with
  | JNull => Threw (TypeError ("Cannot read properties of null (reading '" ++ key ++ "')"))
  | JObject ms => Returned (lookup key ms)
  | _ => Returned None
  end.

(** A value of the state's type [T | null]: JSON [null] is JavaScript's. *)
Definition nullable (v : json) : option json :=
  match v with
  | JNull => None
  | _ => Some v
  end.

End Json.

Import Json.

(* ================================================================== *)
(** ** types *)
(* ================================================================== *)

Module Types.

(** The declared shape of an analysis (a static type: nothing at run
    time checks a value against it). *)
Record DreamAnalysis := mkAnalysis {
  transcription : string;
  interpretation : string;
  visualPrompt : string;
  emotionalTheme : string
}.

(** ['1K' | '2K' | '4K'] *)
Inductive ImageSize := Size1K | Size2K | Size4K.

Inductive Role := user | model.

Record ChatMessage := mkMessage { role : Role; text : string }.

Inductive Step := idle | recording | analyzing | generating_image | complete.

(** A [Blob]: its MIME type and its bytes. *)
Record Blob := mkBlob { blob_type : string; blob_bytes : string }.

Definition size (b : Blob) : nat := String.length (blob_bytes b).

(** [new Blob(chunks, { type })] *)
Definition new_Blob (chunks : list Blob) (type : string) : Blob :=
  mkBlob type (fold_right (fun c acc => blob_bytes c ++ acc) EmptyString chunks).

Record DreamState := mkState {
  audioBlob : option Blob;
  analysis : option json;       (* DreamAnalysis | null, as the value is at run time *)
  imageUrl : option string;
  imageSize : ImageSize;
  isProcessing : bool;
  isRecording : bool;
  step : Step;
  error : option string
}.

(** The JSON object with the four fields of [a]. *)
Definition to_json (a : DreamAnalysis) : json :=
  JObject [ ("transcription", JString (transcription a));
            ("interpretation", JString (interpretation a));
            ("visualPrompt", JString (visualPrompt a));
            ("emotionalTheme", JString (emotionalTheme a)) ].

(** The JSON text of a string: quotes and backslashes escaped, control
    characters written as [\u00XX]. *)
Definition hex_char (n : nat) : ascii :=
  if Nat.ltb n 10 then ascii_of_nat (48 + n) else ascii_of_nat (87 + n).

Definition escape_char (c : ascii) : string :=
  let n := nat_of_ascii c in
  if Nat.eqb n 34 then String (ascii_of_nat 92) (String c EmptyString)
  else if Nat.eqb n 92 then String (ascii_of_nat 92) (String c EmptyString)
  else if Nat.ltb n 32 then
    String (ascii_of_nat 92)
      (String "u" (String "0" (String "0"
         (String (hex_char (n / 16)) (String (hex_char (n mod 16)) EmptyString)))))
  else String c EmptyString.

Fixpoint escape (s : string) : string :=
  match s with
  | EmptyString => EmptyString
  | String c r => escape_char c ++ escape r
  end.

Definition member (key value rest : string) : string :=
  dq ++ key ++ dq ++ ":" ++ dq ++ escape value ++ dq ++ rest.

(** The JSON text of [to_json a]: what a service that follows the response
    schema sends for the analysis [a]. *)
Definition stringify (a : DreamAnalysis) : string :=
  "{" ++ member "transcription" (transcription a)
        ("," ++ member "interpretation" (interpretation a)
           ("," ++ member "visualPrompt" (visualPrompt a)
              ("," ++ member "emotionalTheme" (emotionalTheme a) "}"))).

(** [v] has the four fields, holding the strings of [a]. *)
Definition has_shape (v : json) (a : DreamAnalysis) : Prop :=
  Json.get v "transcription" = Returned (Some (JString (transcription a))) /\
  Json.get v "interpretation" = Returned (Some (JString (interpretation a))) /\
  Json.get v "visualPrompt" = Returned (Some (JString (visualPrompt a))) /\
  Json.get v "emotionalTheme" = Returned (Some (JString (emotionalTheme a))).

(** The field [key] of [v] is there and is a string. *)
Definition is_string_field (v : json) (key : string) : bool :=
  match Json.get v key with
  | Returned (Some (JString _)) => true
  | _ => false
  end.

(** [v] has all four fields, each a string. *)
Definition conforms (v : json) : bool :=
  is_string_field v "transcription" && is_string_field v "interpretation" &&
  is_string_field v "visualPrompt" && is_string_field v "emotionalTheme".

End Types.

Import Types.

(* ================================================================== *)
(** ** services/geminiService *)
(* ================================================================== *)

(** What the generative-AI SDK hands back. *)
Module Sdk.

Record InlineData := mkInline { mimeType : option string; data : option string }.

Record Part := mkPart { inlineData : option InlineData; part_text : option string }.

Record Content := mkContent { parts : option (list Part) }.

Record Candidate := mkCandidate { content : option Content }.

Record GenerateContentResponse := mkResponse {
  candidates : option (list Candidate);
  text : option string
}.

(** The object [ai.chats.create] returns. *)
Record Chat := mkChat { chat_model : string; systemInstruction : string }.

End Sdk.

Module GeminiService.

(** The two revisions of the service: the one that returns a stock picture
    instead of calling the image model, and the one that calls it. *)
Inductive Revision := Safe | Live.

Definition text_model (rev : Revision) : string :=
  match rev with
  | Safe => "gemini-2.0-flash"
  | Live => "gemini-3-pro-preview"
  end.

Definition prompt : string := "
    You are an expert Jungian psychologist and dream interpreter.
    1. Transcribe the provided audio dream recording accurately.
    2. Identify the core emotional theme.
    3. Provide a structured psychological interpretation using Jungian archetypes.
    4. Create a vivid, surrealist visual description (prompt) based on the core emotional theme and symbols.

    Return the result in JSON format.
  ".

(** The argument of [generateContent] in [analyzeDreamAudio]. *)
Record AnalysisRequest := mkAnalysisRequest {
  a_model : string;
  a_mimeType : string;
  a_data : option string;
  a_text : string;
  a_responseMimeType : string;
  a_required : list string
}.

(** The argument of [generateContent] in [generateDreamImage]. *)
Record ImageRequest := mkImageRequest {
  i_model : string;
  i_text : option json;
  i_aspectRatio : string;
  i_imageSize : ImageSize
}.

(** The collaborators outside the program: the browser's [FileReader] and
    the hosted model. *)
Record External := mkExternal {
  readAsDataURL : Blob -> Completion string;
  generateContent : AnalysisRequest -> Completion Sdk.GenerateContentResponse;
  generateImage : ImageRequest -> Completion Sdk.GenerateContentResponse;
  chat_sendMessage : Sdk.Chat -> string -> Completion Sdk.GenerateContentResponse
}.

Definition blobToBase64 (ext : External) (blob : Blob) : Completion (option string) :=
  bind (readAsDataURL ext blob) (fun base64 => Returned (split_comma_1 base64)).

Definition analysis_request (rev : Revision) (audioBlob : Blob) (base64Audio : option string)
  : AnalysisRequest :=
  {| a_model := text_model rev;
     a_mimeType := or_else (Some (blob_type audioBlob)) "audio/webm";
     a_data := base64Audio;
     a_text := prompt;
     a_responseMimeType := "application/json";
     a_required := ["transcription"; "interpretation"; "visualPrompt"; "emotionalTheme"] |}.

Definition analyzeDreamAudio (rev : Revision) (ext : External) (audioBlob : Blob)
  : Completion json :=
  bind (blobToBase64 ext audioBlob) (fun base64Audio =>
  bind (generateContent ext (analysis_request rev audioBlob base64Audio)) (fun response =>
    match Sdk.text response with
    | None => Threw (Error "No response from Gemini")
    | Some text =>
        if text =? "" then Threw (Error "No response from Gemini")
        else JSON_parse text
    end)).

Definition image_request (prompt : option json) (size : ImageSize) : ImageRequest :=
  {| i_model := "gemini-3-pro-image-preview";
     i_text := prompt;
     i_aspectRatio := "1:1";
     i_imageSize := size |}.

(** [response.candidates?.[0]?.content?.parts || []] *)
Definition content_parts (response : Sdk.GenerateContentResponse) : list Sdk.Part :=
  match Sdk.candidates response with
  | Some (candidate :: _) =>
      match Sdk.content candidate with
      | Some c =>
          match Sdk.parts c with
          | Some ps => ps
          | None => []
          end
      | None => []
      end
  | _ => []
  end.

(** The [for] loop over the parts, and the [throw] after it. *)
Fixpoint first_image (ps : list Sdk.Part) : Completion string :=
  match ps with
  | [] => Threw (Error "No image generated")
  | part :: rest =>
      match Sdk.inlineData part with
      | Some d => Returned ("data:image/png;base64," ++ interpolate (Sdk.data d))
      | None => first_image rest
      end
  end.

Definition stock_picture : string :=
  "https://images.unsplash.com/photo-1483096954271-6785055b863d?q=80&w=2070&auto=format&fit=crop".

Definition generateDreamImage (rev : Revision) (ext : External)
    (prompt : option json) (size : ImageSize) : Completion string :=
  match rev with
  | Safe => Returned stock_picture
  | Live =>
      bind (generateImage ext (image_request prompt size)) (fun response =>
        first_image (content_parts response))
  end.

Record DreamChatSession := mkSession { chat : Sdk.Chat }.

Definition new_DreamChatSession (rev : Revision) (systemInstruction : string)
  : DreamChatSession :=
  mkSession (Sdk.mkChat (text_model rev) systemInstruction).

Definition fallback_reply : string := "I couldn't generate a response.".

Definition sendMessage (ext : External) (this : DreamChatSession) (message : string)
  : Completion string :=
  bind (chat_sendMessage ext (chat this) message) (fun response =>
    Returned (or_else (Sdk.text response) fallback_reply)).

End GeminiService.

Import GeminiService.

(* ================================================================== *)
(** ** App *)
(* ================================================================== *)

Module App.

(** The argument of [useState<DreamState>]. *)
Definition initial : DreamState :=
  {| audioBlob := None; analysis := None; imageUrl := None; imageSize := Size1K;
     isProcessing := false; isRecording := false; step := idle; error := None |}.

(** The four state updates of [handleRecordingComplete], in source order. *)

Definition to_analyzing (blob : Blob) (prev : DreamState) : DreamState :=
  {| audioBlob := Some blob; analysis := analysis prev; imageUrl := imageUrl prev;
     imageSize := imageSize prev; isProcessing := true; isRecording := isRecording prev;
     step := analyzing; error := None |}.

Definition to_generating_image (a : json) (prev : DreamState) : DreamState :=
  {| audioBlob := audioBlob prev; analysis := nullable a; imageUrl := imageUrl prev;
     imageSize := imageSize prev; isProcessing := isProcessing prev;
     isRecording := isRecording prev; step := generating_image; error := error prev |}.

Definition to_complete (url : string) (prev : DreamState) : DreamState :=
  {| audioBlob := audioBlob prev; analysis := analysis prev; imageUrl := Some url;
     imageSize := imageSize prev; isProcessing := false; isRecording := isRecording prev;
     step := complete; error := error prev |}.

Definition failure_text : string := "Failed to process dream. Please try again.".

Definition to_idle_with_error (e : Exn) (prev : DreamState) : DreamState :=
  {| audioBlob := audioBlob prev; analysis := analysis prev; imageUrl := imageUrl prev;
     imageSize := imageSize prev; isProcessing := false; isRecording := isRecording prev;
     step := idle; error := Some (or_else (Some (message e)) failure_text) |}.

(** [reset] replaces the state; [state] is the state of the render the
    click happened in. *)
Definition reset (state : DreamState) : DreamState :=
  {| audioBlob := None; analysis := None; imageUrl := None;
     imageSize := imageSize state; isProcessing := false; isRecording := false;
     step := idle; error := None |}.

Definition setImageSize (size : ImageSize) (prev : DreamState) : DreamState :=
  {| audioBlob := audioBlob prev; analysis := analysis prev; imageUrl := imageUrl prev;
     imageSize := size; isProcessing := isProcessing prev; isRecording := isRecording prev;
     step := step prev; error := error prev |}.

(** A call of [handleRecordingComplete] waiting at one of its two [await]s.
    [state] is the state the handler closed over when it was created: the
    source reads [state.imageSize] from it, not from [prev]. *)
Inductive Suspended :=
| AwaitAnalysis (state : DreamState) (blob : Blob)
| AwaitImage (state : DreamState) (a : json).

(** The service calls the application makes. *)
Inductive Call :=
| CallAnalyze (blob : Blob)
| CallImage (prompt : option json) (size : ImageSize).

(** The application: its current state, the handlers in flight, the calls
    made so far (oldest first). *)
Record World := mkWorld {
  current : DreamState;
  suspended : list Suspended;
  calls : list Call
}.

Definition init : World := mkWorld initial [] [].

Definition update (f : DreamState -> DreamState) (w : World) : World :=
  mkWorld (f (current w)) (suspended w) (calls w).

(** From the call to the first [await]. *)
Definition handleRecordingComplete (state : DreamState) (blob : Blob) (w : World) : World :=
  mkWorld (to_analyzing blob (current w))
          (suspended w ++ [AwaitAnalysis state blob])
          (calls w ++ [CallAnalyze blob]).

(** From the first [await] to the second, or through the [catch]. *)
Definition after_analysis (state : DreamState) (outcome : Completion json) (w : World)
  : World :=
  match outcome with
  | Returned a =>
      let w1 := update (to_generating_image a) w in
      match Json.get a "visualPrompt" with
      | Returned p =>
          mkWorld (current w1)
                  (suspended w1 ++ [AwaitImage state a])
                  (calls w1 ++ [CallImage p (imageSize state)])
      | Threw e => update (to_idle_with_error e) w1
      end
  | Threw e => update (to_idle_with_error e) w
  end.

(** From the second [await] to the end, or through the [catch]. *)
Definition after_image (outcome : Completion string) (w : World) : World :=
  match outcome with
  | Returned url => update (to_complete url) w
  | Threw e => update (to_idle_with_error e) w
  end.

Definition drop (n : nat) (w : World) : World :=
  mkWorld (current w) (firstn n (suspended w) ++ skipn (S n) (suspended w)) (calls w).

Inductive Event :=
| RecordingComplete (state : DreamState) (blob : Blob)
| AnalysisSettled (n : nat) (outcome : Completion json)
| ImageSettled (n : nat) (outcome : Completion string)
| Reset
| SetImageSize (size : ImageSize).

(** One event; [None] when no handler is waiting for that settlement. *)
Definition fire (e : Event) (w : World) : option World :=
  match e with
  | RecordingComplete state blob => Some (handleRecordingComplete state blob w)
  | AnalysisSettled n outcome =>
      match nth_error (suspended w) n with
      | Some (AwaitAnalysis state _) => Some (after_analysis state outcome (drop n w))
      | _ => None
      end
  | ImageSettled n outcome =>
      match nth_error (suspended w) n with
      | Some (AwaitImage _ _) => Some (after_image outcome (drop n w))
      | _ => None
      end
  | Reset => Some (update (fun _ => reset (current w)) w)
  | SetImageSize size => Some (update (setImageSize size) w)
  end.

Fixpoint run (es : list Event) (w : World) : option World :=
  match es with
  | [] => Some w
  | e :: es' =>
      match fire e w with
      | Some w' => run es' w'
      | None => None
      end
  end.

(** Every state the application can be in, whatever the order of events. *)
Inductive reachable : World -> Prop :=
| reach_init : reachable init
| reach_fire e w w' : reachable w -> fire e w = Some w' -> reachable w'.

(** One dream at a time: a recording is handed over only in [idle] with no
    handler in flight, and the user does not reset while one is. *)
Definition in_turn (e : Event) (w : World) : Prop :=
  match e with
  | RecordingComplete _ _ => step (current w) = idle /\ suspended w = []
  | Reset => suspended w = []
  | _ => True
  end.

Inductive reachable_in_turn : World -> Prop :=
| turn_init : reachable_in_turn init
| turn_fire e w w' :
    reachable_in_turn w -> in_turn e w -> fire e w = Some w' -> reachable_in_turn w'.

End App.

(* ================================================================== *)
(** ** components/AudioRecorder *)
(* ================================================================== *)

(** The component of [components/AudioRecorder.tsx].  Its later revision
    adds checks before [getUserMedia] and a permission message, and clears
    [audioContextRef] in [stopVisualizer]; the handlers below are otherwise
    the same. *)
Module AudioRecorder.

Set Implicit Arguments.

Inductive TrackState := live | ended.

(** A [MediaStream]: the [readyState] of each of its tracks. *)
Definition MediaStream := list TrackState.

(** [capturing]: recording; [stopping]: [stop()] was called and the stop
    event is on its way; [inactive]: the event has been delivered. *)
Inductive RecorderState := capturing | stopping | inactive.

Inductive ContextState := running | closed.

Section Component.

(** The rest of the page, which the callbacks of the props act on. *)
Variable W : Type.

(** [AudioRecorderProps].  A callback may throw: it gives back the page
    as it left it and the exception, if any. *)
Record Props := mkProps {
  onRecordingComplete : Blob -> W -> W * option Exn;
  imageSize : ImageSize;
  setImageSize : ImageSize -> W -> W
}.

(** The [MediaRecorder] built by [startRecording]; its [onstop] closes
    over the [stream] and over the props of the render whose
    [startRecording] ran. *)
Record MediaRecorder := mkRecorder {
  state : RecorderState;
  stream : MediaStream;
  closure : Props
}.

(** The component's [useState] and [useRef] cells, and what the browser
    holds for it: the animation-frame callbacks still scheduled. *)
Record Local := mkLocal {
  isRecording : bool;
  mediaRecorderRef : option MediaRecorder;
  chunksRef : list Blob;
  animationFrameRef : option nat;
  audioContextRef : option ContextState;
  scheduled : list nat;
  next_frame : nat;
  starting : list Props;
  alerts : list string
}.

Definition mounted : Local :=
  mkLocal false None [] None None [] 1 [] [].

Definition set_isRecording (b : bool) (l : Local) : Local :=
  mkLocal b (mediaRecorderRef l) (chunksRef l) (animationFrameRef l)
          (audioContextRef l) (scheduled l) (next_frame l) (starting l) (alerts l).

Definition set_mediaRecorderRef (r : option MediaRecorder) (l : Local) : Local :=
  mkLocal (isRecording l) r (chunksRef l) (animationFrameRef l)
          (audioContextRef l) (scheduled l) (next_frame l) (starting l) (alerts l).

Definition set_chunksRef (c : list Blob) (l : Local) : Local :=
  mkLocal (isRecording l) (mediaRecorderRef l) c (animationFrameRef l)
          (audioContextRef l) (scheduled l) (next_frame l) (starting l) (alerts l).

Definition set_audioContextRef (c : option ContextState) (l : Local) : Local :=
  mkLocal (isRecording l) (mediaRecorderRef l) (chunksRef l) (animationFrameRef l)
          c (scheduled l) (next_frame l) (starting l) (alerts l).

Definition set_scheduled (q : list nat) (l : Local) : Local :=
  mkLocal (isRecording l) (mediaRecorderRef l) (chunksRef l) (animationFrameRef l)
          (audioContextRef l) q (next_frame l) (starting l) (alerts l).

Definition set_starting (p : list Props) (l : Local) : Local :=
  mkLocal (isRecording l) (mediaRecorderRef l) (chunksRef l) (animationFrameRef l)
          (audioContextRef l) (scheduled l) (next_frame l) p (alerts l).

Definition alert (text : string) (l : Local) : Local :=
  mkLocal (isRecording l) (mediaRecorderRef l) (chunksRef l) (animationFrameRef l)
          (audioContextRef l) (scheduled l) (next_frame l) (starting l)
          (alerts l ++ [text]).

(** [animationFrameRef.current = requestAnimationFrame(draw)]: the
    browser hands out a fresh non-zero handle and keeps the callback. *)
Definition requestAnimationFrame (l : Local) : Local :=
  mkLocal (isRecording l) (mediaRecorderRef l) (chunksRef l) (Some (next_frame l))
          (audioContextRef l) (scheduled l ++ [next_frame l]) (S (next_frame l))
          (starting l) (alerts l).

Definition cancelAnimationFrame (id : nat) (l : Local) : Local :=
  set_scheduled (filter (fun i => negb (Nat.eqb id i)) (scheduled l)) l.

(** [draw]: schedules itself for the next frame and remembers the handle.
    Its guard on [analyserRef.current] never fires, the ref being set before
    the first call and never cleared; the painting of the canvas is not
    part of the state. *)
Definition draw (l : Local) : Local := requestAnimationFrame l.

(** [startVisualizer], in a browser that has an [AudioContext] and gives the
    canvas a 2d context: it opens the audio context and draws the first frame. *)
Definition startVisualizer (l : Local) : Local :=
  draw (set_audioContextRef (Some running) l).

(** The browser runs the callback with handle [id], if still scheduled. *)
Definition frame (id : nat) (l : Local) : Local :=
  if existsb (Nat.eqb id) (scheduled l)
  then draw (cancelAnimationFrame id l)
  else l.

(** [cancelAnimationFrame(animationFrameRef.current)] when the handle is
    truthy, then [audioContextRef.current.close()]. *)
Definition stopVisualizer (l : Local) : Local :=
  let l1 :=
    match animationFrameRef l with
    | Some id => if Nat.eqb id 0 then l else cancelAnimationFrame id l
    | None => l
    end in
  match audioContextRef l1 with
  | Some _ => set_audioContextRef (Some closed) l1
  | None => l1
  end.

(** [stream.getTracks().forEach(track => track.stop())] *)
Definition stop_tracks (s : MediaStream) : MediaStream := map (fun _ => ended) s.

(** [startRecording] up to [await getUserMedia]: the call waits, holding
    the props of its render. *)
Definition startRecording (props : Props) (l : Local) : Local :=
  set_starting (starting l ++ [props]) l.

(** The rest of [startRecording], once [getUserMedia] has settled. *)
Definition startRecording_resume (props : Props) (outcome : Completion MediaStream)
    (l : Local) : Local :=
  match outcome with
  | Returned stream =>
      let l1 := set_mediaRecorderRef (Some (mkRecorder capturing stream props)) l in
      let l2 := set_chunksRef [] l1 in
      let l3 := startVisualizer l2 in
      set_isRecording true l3
  | Threw _ =>
      alert "Could not access microphone. Please check permissions." l
  end.

(** The [n]-th waiting call of [startRecording] goes on. *)
Definition forget_start (n : nat) (l : Local) : Local :=
  set_starting (firstn n (starting l) ++ skipn (S n) (starting l)) l.

(** [if (e.data.size > 0) chunksRef.current.push(e.data)] *)
Definition ondataavailable (data : Blob) (l : Local) : Local :=
  if Nat.ltb 0 (size data) then set_chunksRef (chunksRef l ++ [data]) l else l.

(** [stopRecording]: [mediaRecorderRef.current.stop()] and
    [setIsRecording(false)], when there is a recorder and [isRecording]. *)
Definition stopRecording (l : Local) : Local :=
  match mediaRecorderRef l with
  | Some mr =>
      if isRecording l then
        set_isRecording false
          (set_mediaRecorderRef (Some (mkRecorder stopping (stream mr) (closure mr))) l)
      else l
  | None => l
  end.

(** The [onstop] handler of the recorder [mr] (the same text in both
    revisions of the component).  Its four statements run in order: build
    the blob, call [onRecordingComplete], [stopVisualizer], stop the tracks;
    an exception from the callback leaves the handler at once. *)
Definition onstop (mr : MediaRecorder) (l : Local) (w : W) : Local * W * option Exn :=
  let blob := new_Blob (chunksRef l) "audio/webm" in
  match onRecordingComplete (closure mr) blob w with
  | (w', Some e) => (set_mediaRecorderRef (Some (mkRecorder inactive (stream mr) (closure mr))) l,
                     w', Some e)
  | (w', None) =>
      let l1 := stopVisualizer l in
      (set_mediaRecorderRef
         (Some (mkRecorder inactive (stop_tracks (stream mr)) (closure mr))) l1,
       w', None)
  end.

(** A resolution button: [onClick={() => setImageSize(size)}],
    [disabled={isRecording}]. *)
Definition click_size (props : Props) (size : ImageSize) (l : Local) (w : W) : Local * W :=
  if isRecording l then (l, w) else (l, setImageSize props size w).

(** The round button: [onClick={isRecording ? stopRecording : startRecording}] *)
Definition click_record (props : Props) (l : Local) : Local :=
  if isRecording l then stopRecording l else startRecording props l.

(** The microphone is released: every track of the stream has ended. *)
Definition released (l : Local) : Prop :=
  match mediaRecorderRef l with
  | Some mr => Forall (fun t => t = ended) (stream mr)
  | None => True
  end.

(** The visualizer is halted: no frame callback is scheduled any more. *)
Definition halted (l : Local) : Prop := scheduled l = [].

End Component.

Unset Implicit Arguments.

End AudioRecorder.

(* ================================================================== *)
(** ** components/ChatInterface *)
(* ================================================================== *)

Module ChatInterface.

Record State := mkChatState {
  messages : list ChatMessage;
  input : string;
  isLoading : bool;
  chatSessionRef : option DreamChatSession
}.

Definition initial : State := mkChatState [] EmptyString false None.

Definition systemInstruction (analysis : DreamAnalysis) : string :=
  "
      You are a helpful, empathetic, and insightful dream interpretation assistant.
      The user has shared a dream with the following transcription: "
  ++ dq ++ transcription analysis ++ dq ++ ".
      The initial psychological interpretation provided was: "
  ++ dq ++ interpretation analysis ++ dq ++ ".
      The core emotional theme is: "
  ++ dq ++ emotionalTheme analysis ++ dq ++ ".
      
      Your goal is to answer the user's follow-up questions about specific symbols, feelings, or meanings in their dream.
      Use Jungian concepts where appropriate but remain accessible.
      Do not repeat the initial interpretation unless asked.
    ".

(** The effect that runs after the first render (and when [analysis] changes). *)
Definition create_session (rev : Revision) (analysis : DreamAnalysis) (st : State) : State :=
  mkChatState (messages st) (input st) (isLoading st)
              (Some (new_DreamChatSession rev (systemInstruction analysis))).

(** [onChange={(e) => setInput(e.target.value)}] *)
Definition setInput (value : string) (st : State) : State :=
  mkChatState (messages st) value (isLoading st) (chatSessionRef st).

Definition apology : string :=
  "I'm sorry, I'm having trouble connecting to the dream realm right now.".

(** [handleSend] up to its [await]: the new state and, unless the guard
    returned, the call it makes. *)
Definition handleSend (st : State) : State * option (DreamChatSession * string) :=
  if trim (input st) =? "" then (st, None)
  else
    match chatSessionRef st with
    | None => (st, None)
    | Some session =>
        if isLoading st then (st, None)
        else
          (mkChatState (messages st ++ [mkMessage user (input st)]) EmptyString true
                       (chatSessionRef st),
           Some (session, input st))
    end.

(** The [try] after the [await], its [catch] and its [finally]. *)
Definition handleSend_resume (outcome : Completion string) (st : State) : State :=
  let reply :=
    match outcome with
    | Returned responseText => mkMessage model responseText
    | Threw _ => mkMessage model apology
    end in
  mkChatState (messages st ++ [reply]) (input st) false (chatSessionRef st).

(** A whole turn against the service. *)
Definition turn (ext : External) (st : State) : State :=
  match handleSend st with
  | (st1, Some (session, message)) =>
      handleSend_resume (sendMessage ext session message) st1
  | (st1, None) => st1
  end.

End ChatInterface.

(* ================================================================== *)
(** ** The page: App rendering AudioRecorder *)
(* ================================================================== *)

Module Page.

Module R := AudioRecorder.

(** One instance of [AudioRecorder]: its cells, and the [MediaRecorder]s it
    made that [mediaRecorderRef] no longer points to.  Such a recorder
    keeps its handlers, which close over the refs of the instance. *)
Record Instance := mkInstance {
  cells : R.Local App.World;
  orphans : list (R.MediaRecorder App.World)
}.

Definition fresh : Instance := mkInstance (R.mounted App.World) [].

(** [AudioRecorder] is rendered exactly when [state.step === 'idle'].  The
    component has no clean-up but [clearInterval]: when React unmounts an
    instance, its pending [getUserMedia] calls, its [MediaRecorder]s and
    its animation frames live on, with the refs and props they closed over. *)
Record Page := mkPage {
  world : App.World;
  recorder : option Instance;
  unmounted : list Instance
}.

(** The props [App] passes in the render of [state]: this render's
    [handleRecordingComplete] and [setImageSize].  The handler is an async
    function: it hands back a promise and never throws into its caller. *)
Definition props_of (state : DreamState) : R.Props App.World :=
  R.mkProps (fun blob w => (App.handleRecordingComplete state blob w, None))
            (imageSize state)
            (fun size w => App.update (App.setImageSize size) w).

(** Re-render: the recorder keeps its cells while it stays mounted and
    starts afresh when it is mounted again; in the other steps the instance
    that was on the page joins the unmounted ones. *)
Definition render (w : App.World) (r : option Instance) (gone : list Instance) : Page :=
  match step (App.current w) with
  | idle =>
      match r with
      | Some i => mkPage w (Some i) gone
      | None => mkPage w (Some fresh) gone
      end
  | _ =>
      match r with
      | Some i => mkPage w None (gone ++ [i])
      | None => mkPage w None gone
      end
  end.

Definition start : Page := render App.init None [].

(** The rest of [startRecording] in an instance that is no longer mounted:
    [canvasRef.current] is null, so [startVisualizer] returns at once, and
    React ignores [setIsRecording]. *)
Definition startRecording_resume_unmounted (props : R.Props App.World)
    (outcome : Completion R.MediaStream) (l : R.Local App.World) : R.Local App.World :=
  match outcome with
  | Returned stream =>
      let l1 := R.set_mediaRecorderRef (Some (R.mkRecorder R.capturing stream props)) l in
      R.set_chunksRef [] l1
  | Threw _ =>
      R.alert "Could not access microphone. Please check permissions." l
  end.

(** [mediaRecorderRef.current = new MediaRecorder(stream)] leaves the
    recorder that was referenced before, if any, to itself. *)
Definition left_to_itself (l : R.Local App.World) (os : list (R.MediaRecorder App.World))
  : list (R.MediaRecorder App.World) :=
  match R.mediaRecorderRef l with
  | Some old => os ++ [old]
  | None => os
  end.

(** Which recorder of an instance an event comes from. *)
Inductive Source :=
| Referenced
| Orphaned (j : nat).

Definition the_recorder (r : Source) (i : Instance) : option (R.MediaRecorder App.World) :=
  match r with
  | Referenced => R.mediaRecorderRef (cells i)
  | Orphaned j => nth_error (orphans i) j
  end.

Definition replace {A : Type} (n : nat) (x : A) (l : list A) : list A :=
  firstn n l ++ x :: skipn (S n) l.

(** What the browser delivers to an instance. *)
Inductive Browser :=
| MicrophoneSettled (n : nat) (outcome : Completion R.MediaStream)
| DataAvailable (r : Source) (data : Blob)
| RecorderStopped (r : Source)
| AnimationFrame (id : nat).

(** One such event on the instance [i], mounted or not; [None] when the
    browser has no such event for it.  A recorder delivers data until its
    stop event; the stop event comes after [stop()], or while the recorder
    is still capturing when its tracks end on their own.  The handlers of
    an orphaned recorder act on the cells of its instance; the recorder
    the ref points to stays where it is. *)
Definition browser (mounted : bool) (b : Browser) (i : Instance) (w : App.World)
  : option (Instance * App.World) :=
  match b with
  | MicrophoneSettled n outcome =>
      match nth_error (R.starting (cells i)) n with
      | Some captured =>
          let l := R.forget_start n (cells i) in
          Some (mkInstance
                  (if mounted then R.startRecording_resume captured outcome l
                   else startRecording_resume_unmounted captured outcome l)
                  (match outcome with
                   | Returned _ => left_to_itself (cells i) (orphans i)
                   | Threw _ => orphans i
                   end),
                w)
      | None => None
      end
  | DataAvailable r data =>
      match the_recorder r i with
      | Some mr =>
          match R.state mr with
          | R.inactive => None
          | _ => Some (mkInstance (R.ondataavailable data (cells i)) (orphans i), w)
          end
      | None => None
      end
  | RecorderStopped r =>
      match the_recorder r i with
      | Some mr =>
          match R.state mr with
          | R.inactive => None
          | _ =>
              let '(l', w', _) := R.onstop mr (cells i) w in
              match r with
              | Referenced => Some (mkInstance l' (orphans i), w')
              | Orphaned j =>
                  Some (mkInstance
                          (R.set_mediaRecorderRef (R.mediaRecorderRef (cells i)) l')
                          (match R.mediaRecorderRef l' with
                           | Some mr' => replace j mr' (orphans i)
                           | None => orphans i
                           end),
                        w')
              end
          end
      | None => None
      end
  | AnimationFrame id => Some (mkInstance (R.frame id (cells i)) (orphans i), w)
  end.

(** Which instance: the one on the page, or the [k]-th unmounted one. *)
Inductive Target :=
| Shown
| Unmounted (k : nat).

Inductive Event :=
| ClickResolution (size : ImageSize)
| ClickRecord
| ClickHeader
| AnalysisSettled (n : nat) (outcome : Completion json)
| ImageSettled (n : nat) (outcome : Completion string)
| On (t : Target) (b : Browser).

Definition app_event (e : App.Event) (p : Page) : option Page :=
  match App.fire e (world p) with
  | Some w' => Some (render w' (recorder p) (unmounted p))
  | None => None
  end.

(** One event on the page; [None] when the page offers no such event.  A
    click finds the handlers of the latest render, hence the props of the
    current state; a closure made earlier keeps the props it was made with.
    The header, and so [reset], is there in every step; the buttons of the
    recorder are there while it is mounted. *)
Definition fire (e : Event) (p : Page) : option Page :=
  let w := world p in
  let props := props_of (App.current w) in
  match e with
  | ClickResolution size =>
      match recorder p with
      | Some i =>
          let (l', w') := R.click_size props size (cells i) w in
          Some (render w' (Some (mkInstance l' (orphans i))) (unmounted p))
      | None => None
      end
  | ClickRecord =>
      match recorder p with
      | Some i =>
          Some (render w (Some (mkInstance (R.click_record props (cells i)) (orphans i)))
                       (unmounted p))
      | None => None
      end
  | ClickHeader => app_event App.Reset p
  | AnalysisSettled n outcome => app_event (App.AnalysisSettled n outcome) p
  | ImageSettled n outcome => app_event (App.ImageSettled n outcome) p
  | On Shown b =>
      match recorder p with
      | Some i =>
          match browser true b i w with
          | Some (i', w') => Some (render w' (Some i') (unmounted p))
          | None => None
          end
      | None => None
      end
  | On (Unmounted k) b =>
      match nth_error (unmounted p) k with
      | Some i =>
          match browser false b i w with
          | Some (i', w') => Some (render w' (recorder p) (replace k i' (unmounted p)))
          | None => None
          end
      | None => None
      end
  end.

Fixpoint run (es : list Event) (p : Page) : option Page :=
  match es with
  | [] => Some p
  | e :: es' =>
      match fire e p with
      | Some p' => run es' p'
      | None => None
      end
  end.

Inductive reachable : Page -> Prop :=
| reach_start : reachable start
| reach_fire e p p' : reachable p -> fire e p = Some p' -> reachable p'.

(** Props that [App] built in some render. *)
Definition from_app (props : R.Props App.World) : Prop :=
  exists state, props = props_of state.

(** The props the closures of an instance hold are props [App] gave it. *)
Definition closed_over_props (i : Instance) : Prop :=
  Forall from_app (R.starting (cells i)) /\
  match R.mediaRecorderRef (cells i) with
  | Some mr => from_app (R.closure mr)
  | None => True
  end /\
  Forall (fun mr => from_app (R.closure mr)) (orphans i).

(** The recorder is on the page in [idle] only. *)
Definition well_formed (p : Page) : Prop :=
  match recorder p with
  | Some i => step (App.current (world p)) = idle /\ closed_over_props i
  | None => step (App.current (world p)) <> idle
  end /\
  Forall closed_over_props (unmounted p).

End Page.

Module R := AudioRecorder.

(* ================================================================== *)
(** ** Predicates on the states of the application *)
(* ================================================================== *)

(** What holds in every reachable state, whatever the interleaving. *)
Definition holds_what_its_step_needs (s : DreamState) : Prop :=
  (step s = generating_image -> analysis s <> None) /\
  (step s = complete -> imageUrl s <> None).

(** What holds when dreams are processed one at a time: the handler in
    flight, if any, is the one the step shows. *)
Definition in_step (w : App.World) : Prop :=
  let s := App.current w in
  match App.suspended w with
  | [] =>
      (step s = idle /\ imageUrl s = None) \/
      (step s = complete /\ analysis s <> None /\ imageUrl s <> None)
  | [App.AwaitAnalysis _ _] => step s = analyzing /\ imageUrl s = None
  | [App.AwaitImage _ _] =>
      step s = generating_image /\ analysis s <> None /\ imageUrl s = None
  | _ => False
  end.

(* ================================================================== *)
(** ** Sample data *)
(* ================================================================== *)

Module Sample.

Definition quoted (s : string) : string :=
  dq ++ s ++ dq.

Definition dream : DreamAnalysis :=
  mkAnalysis "I was flying over water" "The Self seeks freedom"
             "A figure soaring above a silver sea" "longing".

(** A JSON text with one of the four fields only. *)
Definition partial_text : string :=
  "{" ++ quoted "transcription" ++ ":" ++ quoted "I was flying" ++ "}".

Definition partial_value : json :=
  JObject [("transcription", JString "I was flying")].

Definition recording : Blob := mkBlob "audio/webm" "RIFF".

Definition png : Sdk.Part :=
  Sdk.mkPart (Some (Sdk.mkInline (Some "image/png") (Some "iVBORw0KGgo="))) None.

Definition caption : Sdk.Part := Sdk.mkPart None (Some "Here is your image").

Definition response_of (ps : list Sdk.Part) (text : option string)
  : Sdk.GenerateContentResponse :=
  Sdk.mkResponse (Some [Sdk.mkCandidate (Some (Sdk.mkContent (Some ps)))]) text.

(** A mocked service: the analysis call answers [text], the image call
    answers the parts [ps], the chat answers [reply]. *)
Definition mock (text : option string) (ps : list Sdk.Part) (reply : Completion (option string))
  : External :=
  {| readAsDataURL := fun b => Returned ("data:" ++ blob_type b ++ ";base64,UklGRg==");
     generateContent := fun _ => Returned (response_of [] text);
     generateImage := fun _ => Returned (response_of ps None);
     chat_sendMessage := fun _ _ =>
       match reply with
       | Returned t => Returned (response_of [] t)
       | Threw e => Threw e
       end |}.

(** A dream whose analysis succeeds and whose image call finds no image. *)
Definition handed_over : App.World :=
  App.handleRecordingComplete App.initial recording App.init.

Definition analysed : App.World :=
  App.after_analysis App.initial (Returned (to_json dream)) (App.drop 0 handed_over).

Definition no_image : Completion string :=
  generateDreamImage Live (mock None [caption] (Returned None))
                     (Some (JString (visualPrompt dream))) Size1K.

Definition image_failed : App.World :=
  App.after_image no_image (App.drop 0 analysed).

Definition pictured : App.World :=
  App.after_image (Returned stock_picture) (App.drop 0 analysed).

(** A completion callback that throws, and a recorder that was started
    with it, has one live microphone track, and has just been told to stop. *)
Definition throwing : AudioRecorder.Props unit :=
  AudioRecorder.mkProps (fun _ w => (w, Some (Error "callback failed")))
                        Size1K (fun _ w => w).

Definition told_to_stop (props : AudioRecorder.Props unit) : AudioRecorder.Local unit :=
  AudioRecorder.stopRecording
    (AudioRecorder.ondataavailable recording
       (AudioRecorder.startRecording_resume props (Returned [AudioRecorder.live])
          (AudioRecorder.forget_start 0
             (AudioRecorder.startRecording props (AudioRecorder.mounted unit))))).

Definition its_recorder (props : AudioRecorder.Props unit) : AudioRecorder.MediaRecorder unit :=
  AudioRecorder.mkRecorder AudioRecorder.stopping [AudioRecorder.live] props.

Definition quiet : AudioRecorder.Props unit :=
  AudioRecorder.mkProps (fun _ w => (w, None)) Size1K (fun _ w => w).

(** A part with inline data that is no image, and an answer whose image is
    in its second candidate. *)
Definition wav : Sdk.Part :=
  Sdk.mkPart (Some (Sdk.mkInline (Some "audio/wav") (Some "UklGRg=="))) None.

Definition image_in_second_candidate : Sdk.GenerateContentResponse :=
  Sdk.mkResponse (Some [ Sdk.mkCandidate (Some (Sdk.mkContent (Some [caption])));
                         Sdk.mkCandidate (Some (Sdk.mkContent (Some [png]))) ])
                 None.

(** A mocked service whose image call answers [response]. *)
Definition answering (response : Sdk.GenerateContentResponse) : External :=
  {| readAsDataURL := fun b => Returned ("data:" ++ blob_type b ++ ";base64,UklGRg==");
     generateContent := fun _ => Returned (response_of [] None);
     generateImage := fun _ => Returned response;
     chat_sendMessage := fun _ _ => Returned (response_of [] None) |}.

(** The page while a recording is in progress. *)
Definition recording_page : Page.Page :=
  Page.mkPage App.init
    (Some (Page.mkInstance
             (R.startRecording_resume (Page.props_of App.initial) (Returned [R.live])
                (R.forget_start 0
                   (R.startRecording (Page.props_of App.initial) (R.mounted App.World))))
             []))
    [].

Definition or_start (o : option Page.Page) : Page.Page :=
  match o with
  | Some p => p
  | None => Page.start
  end.

(** One recording on the page, as the browser delivers it: the click on
    record, the microphone granted, the click on stop, the audio, the stop
    event. *)
Definition one_recording : list Page.Event :=
  [ Page.ClickRecord;
    Page.On Page.Shown (Page.MicrophoneSettled 0 (Returned [R.live]));
    Page.ClickRecord;
    Page.On Page.Shown (Page.DataAvailable Page.Referenced recording);
    Page.On Page.Shown (Page.RecorderStopped Page.Referenced) ].

(** A dream recorded with 1K chosen is being analysed when the user clicks
    the header; then chooses 4K; then the analysis settles. *)
Definition reset_in_flight : Page.Page :=
  or_start (Page.run (one_recording ++ [Page.ClickHeader]) Page.start).

Definition chose_4K : Page.Page :=
  or_start (Page.fire (Page.ClickResolution Size4K) reset_in_flight).

Definition settled_late : Page.Page :=
  or_start (Page.fire (Page.AnalysisSettled 0 (Returned (to_json dream))) chose_4K).

(** The user clicks record and, while the browser has not yet granted the
    microphone, chooses 4K; then the recording is made and analysed. *)
Definition microphone_pending : Page.Page :=
  or_start (Page.run [Page.ClickRecord] Page.start).

Definition chose_4K_pending : Page.Page :=
  or_start (Page.fire (Page.ClickResolution Size4K) microphone_pending).

Definition chosen_late : Page.Page :=
  or_start (Page.run [ Page.On Page.Shown (Page.MicrophoneSettled 0 (Returned [R.live]));
                       Page.ClickRecord;
                       Page.On Page.Shown (Page.DataAvailable Page.Referenced recording);
                       Page.On Page.Shown (Page.RecorderStopped Page.Referenced);
                       Page.AnalysisSettled 0 (Returned (to_json dream)) ]
                     chose_4K_pending).

Definition session : DreamChatSession :=
  new_DreamChatSession Live (ChatInterface.systemInstruction dream).

Definition chatting : ChatInterface.State :=
  ChatInterface.mkChatState
    [mkMessage user "Why was I flying?"; mkMessage model "Flight often stands for release."]
    "And the water?" false (Some session).

End Sample.

(* ================================================================== *)
(** ** The rest of the program *)
(* ================================================================== *)

(** The clock of [AudioRecorder]: [formatTime] and the effect that drives
    [recordingTime]. *)
Module Clock.

(** A non-negative integer printed by a template literal or [toString()].
    [recordingTime] counts from 0 in steps of 1, so the numbers here are
    whole and far inside the range that JavaScript numbers hold exactly;
    they are modelled as [nat]. *)
Definition decimal (n : nat) : string :=
  DecimalString.NilEmpty.string_of_uint (Nat.to_uint n).

(** [s.padStart(n, c)] for a one-character pad. *)
Definition padStart (n : nat) (c : ascii) (s : string) : string :=
  fold_right (fun _ acc => String c acc) s (seq 0 (n - String.length s)).

Definition formatTime (seconds : nat) : string :=
  let mins := seconds / 60 in
  let secs := seconds mod 60 in
  decimal mins ++ ":" ++ padStart 2 "0" (decimal secs).

(** The text before the first colon, and the text after it. *)
Fixpoint before_colon (s : string) : string :=
  match s with
  | EmptyString => EmptyString
  | String c r => if Ascii.eqb c ":" then EmptyString else String c (before_colon r)
  end.

Fixpoint after_colon (s : string) : option string :=
  match s with
  | EmptyString => None
  | String c r => if Ascii.eqb c ":" then Some r else after_colon r
  end.

(** The number of seconds a printed time stands for: the reading that
    [formatTime] is meant for. *)
Definition readTime (s : string) : option nat :=
  match DecimalString.NilEmpty.uint_of_string (before_colon s), after_colon s with
  | Some mins, Some rest =>
      match DecimalString.NilEmpty.uint_of_string rest with
      | Some secs => Some (Nat.of_uint mins * 60 + Nat.of_uint secs)
      | None => None
      end
  | _, _ => None
  end.

(** [recordingTime] and whether the one-second interval of the effect is
    running. *)
Record Timer := mkTimer { recordingTime : nat; interval : bool }.

(** The effect on [isRecording] (after the cleanup of the previous one,
    which clears the interval): it starts the interval, or sets the time
    to 0. *)
Definition effect (isRecording : bool) (t : Timer) : Timer :=
  if isRecording then mkTimer (recordingTime t) true else mkTimer 0 false.

(** One second passes. *)
Definition tick (t : Timer) : Timer :=
  if interval t then mkTimer (S (recordingTime t)) true else t.

Definition display (t : Timer) : string := formatTime (recordingTime t).

End Clock.

(** [hasApiKey] and [selectApiKey] of the service, [checkKey] and
    [handleApiKeySelection] of [App]. *)
Module Keys.

(** [window.aistudio]: each function, when the host has it, with what a
    call of it settles with. *)
Record AIStudio := mkAIStudio {
  hasSelectedApiKey : option (Completion bool);
  openSelectKey : option (Completion unit)
}.

Record Host := mkHost {
  aistudio : option AIStudio;
  API_KEY : option string          (* process.env.API_KEY *)
}.

Definition hasApiKey (h : Host) : Completion bool :=
  match aistudio h with
  | Some a =>
      match hasSelectedApiKey a with
      | Some outcome => outcome
      | None => Returned (truthy (API_KEY h))
      end
  | None => Returned (truthy (API_KEY h))
  end.

Definition selectApiKey (h : Host) : Completion unit :=
  match aistudio h with
  | Some a =>
      match openSelectKey a with
      | Some outcome => outcome
      | None => Returned tt
      end
  | None => Returned tt
  end.

(** [checkKey], run once by the first effect: the new [apiKeyReady] (a
    rejection is not caught and sets nothing). *)
Definition checkKey (h : Host) (apiKeyReady : bool) : bool :=
  match hasApiKey h with
  | Returned ready => ready
  | Threw _ => apiKeyReady
  end.

(** The click on "Connect API Key". *)
Definition handleApiKeySelection (h : Host) (apiKeyReady : bool) : bool :=
  match selectApiKey h with
  | Returned _ => true
  | Threw _ => apiKeyReady
  end.

End Keys.

(** What [App] renders. *)
Module View.

Definition size_label (size : ImageSize) : string :=
  match size with
  | Size1K => "1K"
  | Size2K => "2K"
  | Size4K => "4K"
  end.

Definition is_step (a b : Step) : bool :=
  match a, b with
  | idle, idle | recording, recording | analyzing, analyzing
  | generating_image, generating_image | complete, complete => true
  | _, _ => false
  end.

Inductive Shown :=
| ErrorBanner (text : string)
| Recorder (size : ImageSize)
| Progress (title subtitle : string)
| Result (analysis : json) (imageUrl : string)
| Text (text : string).

Inductive Screen :=
| ConnectKey
| Main (children : list Shown).

Section Truthiness.

(** Whether a number literal denotes zero as a double (the conversion is
    the engine's). *)
Variable denotes_zero : string -> bool.

(** Truthiness of a parsed value. *)
Definition truthy_json (v : json) : bool :=
  match v with
  | JNull => false
  | JBool b => b
  | JNumber lexeme => negb (denotes_zero lexeme)
  | JString s => negb (s =? "")
  | JArray _ => true
  | JObject _ => true
  end.

(** The four conditional children of [main], in source order.  In
    [a && b && c && <DreamResult/>] a falsy operand is what the expression
    is worth; React shows nothing for [false], [null] and the empty string,
    and shows a number, so a zero analysis is shown as the text 0. *)
Definition view (apiKeyReady : bool) (state : DreamState) : Screen :=
  if negb apiKeyReady then ConnectKey
  else
    Main
      ((if truthy (error state)
        then [ErrorBanner (interpolate (error state))] else []) ++
       (if is_step (step state) idle then [Recorder (imageSize state)] else []) ++
       (if is_step (step state) analyzing || is_step (step state) generating_image
        then [Progress
                (if is_step (step state) analyzing
                 then "Interpreting Symbols..." else "Painting the Dreamscape...")
                (if is_step (step state) analyzing
                 then "Transcribing and consulting the archetypes."
                 else "Generating " ++ size_label (imageSize state)
                        ++ " surrealist visualization.")]
        else []) ++
       (if is_step (step state) complete then
          match analysis state with
          | None => []
          | Some a =>
              if truthy_json a then
                match imageUrl state with
                | Some url => if truthy (Some url) then [Result a url] else []
                | None => []
                end
              else
                match a with
                | JNumber _ => [Text "0"]
                | _ => []
                end
          end
        else []))%list.

End Truthiness.

End View.

(** The conversation of [ChatInterface] as events. *)
Module Dialogue.

(** The interface and the call to [sendMessage] it is waiting for, if any. *)
Record Chat := mkChat {
  ui : ChatInterface.State;
  waiting : option (DreamChatSession * string)
}.

Definition start : Chat := mkChat ChatInterface.initial None.

Inductive Event :=
| SessionCreated (rev : Revision) (analysis : DreamAnalysis)
| Typed (value : string)
| Send
| Replied (outcome : Completion string).

Definition fire (e : Event) (c : Chat) : option Chat :=
  match e with
  | SessionCreated rev analysis =>
      Some (mkChat (ChatInterface.create_session rev analysis (ui c)) (waiting c))
  | Typed value => Some (mkChat (ChatInterface.setInput value (ui c)) (waiting c))
  | Send =>
      match ChatInterface.handleSend (ui c) with
      | (st, Some call) => Some (mkChat st (Some call))
      | (st, None) => Some (mkChat st (waiting c))
      end
  | Replied outcome =>
      match waiting c with
      | Some _ => Some (mkChat (ChatInterface.handleSend_resume outcome (ui c)) None)
      | None => None
      end
  end.

Inductive reachable : Chat -> Prop :=
| reach_start : reachable start
| reach_fire e c c' : reachable c -> fire e c = Some c' -> reachable c'.

(** A conversation made of whole exchanges: a user message, then a model
    message. *)
Inductive Exchanges : list ChatMessage -> Prop :=
| no_exchange : Exchanges []
| one_more ms question answer :
    Exchanges ms ->
    Exchanges (ms ++ [mkMessage user question; mkMessage model answer]).

(** Nothing is pending and the conversation is whole exchanges; or a
    reply is pending for the last message, a user message that is not
    blank, and the rest is whole exchanges. *)
Definition well_paired (c : Chat) : Prop :=
  (ChatInterface.isLoading (ui c) = false /\ waiting c = None /\
   Exchanges (ChatInterface.messages (ui c)))
  \/
  (ChatInterface.isLoading (ui c) = true /\
   exists ms session text,
     Exchanges ms /\
     ChatInterface.messages (ui c) = (ms ++ [mkMessage user text])%list /\
     waiting c = Some (session, text) /\
     trim text <> EmptyString).

(** [disabled={isLoading || !input.trim()}] on the send button. *)
Definition send_disabled (st : ChatInterface.State) : bool :=
  ChatInterface.isLoading st || (trim (ChatInterface.input st) =? "").

End Dialogue.

(** One recording, from the microphone granted to the stop event. *)
Module Lifecycle.

Inductive Activity :=
| Frame (id : nat)
| Data (data : Blob).

Definition act {W : Type} (l : R.Local W) (a : Activity) : R.Local W :=
  match a with
  | Frame id => R.frame id l
  | Data data => R.ondataavailable data l
  end.

Definition during {W : Type} (acts : list Activity) (l : R.Local W) : R.Local W :=
  fold_left act acts l.

(** The audio the recorder delivered, in order. *)
Fixpoint audio (acts : list Activity) : string :=
  match acts with
  | [] => EmptyString
  | Frame _ :: rest => audio rest
  | Data data :: rest => blob_bytes data ++ audio rest
  end.

(** The component after [getUserMedia] gave [stream], the activities up to
    the click on stop, the click, and the activities between the click and
    the stop event (where the browser delivers the audio of a recorder
    started without a timeslice). *)
Definition recorded {W : Type} (props : R.Props W) (stream : R.MediaStream)
    (before after : list Activity) (l : R.Local W) : R.Local W :=
  during after
    (R.stopRecording (during before (R.startRecording_resume props (Returned stream) l))).

(** While it runs the visualizer has exactly one frame scheduled, the one
    whose handle the component holds, and its audio context is open. *)
Definition one_frame_ahead {W : Type} (l : R.Local W) : Prop :=
  exists id,
    R.scheduled l = [id] /\ R.animationFrameRef l = Some id /\ id <> 0 /\
    R.next_frame l <> 0 /\ R.audioContextRef l = Some R.running.

End Lifecycle.

(** [handleRecordingComplete] run against the service, nothing else
    happening in between. *)
Module Flow.

Definition dream (rev : Revision) (ext : External) (state : DreamState) (blob : Blob)
    (w : App.World) : option App.World :=
  let n := length (App.suspended w) in
  let w1 := App.handleRecordingComplete state blob w in
  match App.fire (App.AnalysisSettled n (analyzeDreamAudio rev ext blob)) w1 with
  | Some w2 =>
      match nth_error (App.suspended w2) n with
      | Some (App.AwaitImage st a) =>
          match Json.get a "visualPrompt" with
          | Returned p =>
              App.fire (App.ImageSettled n (generateDreamImage rev ext p (imageSize st))) w2
          | Threw _ => Some w2
          end
      | _ => Some w2
      end
  | None => None
  end.

(** How many calls of each kind were made, and how many handlers wait at
    each [await]. *)
Definition analyses (cs : list App.Call) : nat :=
  length (filter (fun c => match c with App.CallAnalyze _ => true | _ => false end) cs).

Definition images (cs : list App.Call) : nat :=
  length (filter (fun c => match c with App.CallImage _ _ => true | _ => false end) cs).

Definition awaiting_analysis (ss : list App.Suspended) : nat :=
  length (filter (fun s => match s with App.AwaitAnalysis _ _ => true | _ => false end) ss).

Definition awaiting_image (ss : list App.Suspended) : nat :=
  length (filter (fun s => match s with App.AwaitImage _ _ => true | _ => false end) ss).

(** Every analysis call is still awaited, or was followed by an image
    call, or failed; every handler waiting for an image made its call. *)
Definition ledger (w : App.World) : Prop :=
  awaiting_analysis (App.suspended w) + images (App.calls w) <= analyses (App.calls w) /\
  awaiting_image (App.suspended w) <= images (App.calls w) /\
  (analysis (App.current w) <> None -> 1 <= images (App.calls w)) /\
  (imageUrl (App.current w) <> None -> 1 <= images (App.calls w)).

(** An analysis call whose blob is of type audio/webm. *)
Definition of_webm (c : App.Call) : Prop :=
  match c with
  | App.CallAnalyze blob => blob_type blob = "audio/webm"
  | App.CallImage _ _ => True
  end.

(** The bookkeeping fields of a state agree with its step. *)
Definition books (s : DreamState) : Prop :=
  (step s = analyzing \/ step s = generating_image ->
     isProcessing s = true /\ error s = None) /\
  (step s = idle \/ step s = complete -> isProcessing s = false) /\
  (error s <> None -> step s = idle) /\
  (step s <> idle -> audioBlob s <> None) /\
  (forall msg, error s = Some msg -> msg <> EmptyString).

Fixpoint no_comma (s : string) : bool :=
  match s with
  | EmptyString => true
  | String c r => negb (Ascii.eqb c ",") && no_comma r
  end.

End Flow.

(** The inline image parts present in a response, whichever candidate
    holds them: what the specification of [generateDreamImage] speaks of,
    in its words. *)
Module Claimed.

Definition is_inline_image (part : Sdk.Part) : bool :=
  match Sdk.inlineData part with
  | Some d =>
      match Sdk.mimeType d with
      | Some type => String.prefix "image/" type
      | None => false
      end
  | None => false
  end.

Definition parts_of (candidate : Sdk.Candidate) : list Sdk.Part :=
  match Sdk.content candidate with
  | Some c =>
      match Sdk.parts c with
      | Some ps => ps
      | None => []
      end
  | None => []
  end.

Definition inline_image_parts (response : Sdk.GenerateContentResponse) : list Sdk.Part :=
  filter is_inline_image
         (flat_map parts_of
                   (match Sdk.candidates response with
                    | Some cs => cs
                    | None => []
                    end)).

End Claimed.

(** More sample data.  A first dream is being analysed when the user
    clicks the header and makes a second recording; the first analysis
    arrives just after the click on stop, so the recorder is unmounted
    before the browser delivers its audio and its stop event. *)
Module Cases.

Definition second_stop_clicked : Page.Page :=
  Sample.or_start
    (Page.run [ Page.ClickRecord;
                Page.On Page.Shown (Page.MicrophoneSettled 0 (Returned [R.live]));
                Page.ClickRecord ]
              Sample.reset_in_flight).

Definition first_analysed : Page.Page :=
  Sample.or_start
    (Page.run [ Page.AnalysisSettled 0 (Returned (to_json Sample.dream));
                Page.On (Page.Unmounted 1) (Page.DataAvailable Page.Referenced Sample.recording) ]
              second_stop_clicked).

Definition second_delivered : Page.Page :=
  Sample.or_start
    (Page.fire (Page.On (Page.Unmounted 1) (Page.RecorderStopped Page.Referenced))
               first_analysed).

Definition asking : ChatInterface.State :=
  ChatInterface.mkChatState [mkMessage user "Why was I flying?"] EmptyString true
                            (Some Sample.session).

End Cases.

(* ================================================================== *)
(** ** Properties of the service *)
(* ================================================================== *)

Lemma or_else_falsy (t : option string) (d : string) :
  truthy t = false -> or_else t d = d.
Proof.
  destruct t as [s|]; simpl; [|reflexivity].
  destruct (s =? "")%string; [reflexivity | discriminate].
Qed.

Lemma or_else_nonempty (t : option string) (d : string) :
  d <> EmptyString -> or_else t d <> EmptyString.
Proof.
  intros Hd. destruct t as [s|]; simpl; [|exact Hd].
  destruct (s =? "")%string eqn:E; [exact Hd|].
  intros ->. discriminate.
Qed.

(** What [analyzeDreamAudio] does with the text of the response. *)
Lemma analyzeDreamAudio_text rev ext blob base64 response :
  readAsDataURL ext blob = Returned base64 ->
  generateContent ext (analysis_request rev blob (split_comma_1 base64)) = Returned response ->
  analyzeDreamAudio rev ext blob =
    match Sdk.text response with
    | None => Threw (Error "No response from Gemini")
    | Some text =>
        if (text =? "")%string then Threw (Error "No response from Gemini")
        else JSON_parse text
    end.
Proof.
  intros Hread Hcall.
  unfold analyzeDreamAudio, blobToBase64.
  rewrite Hread. simpl. rewrite Hcall. reflexivity.
Qed.

(** C6.  When the chat service answers with empty (or no) text,
    [DreamChatSession.sendMessage] returns the literal
    "I couldn't generate a response." and does not throw. *)
Theorem sendMessage_empty_reply_gives_fallback ext this message response :
  chat_sendMessage ext (chat this) message = Returned response ->
  Sdk.text response = Some EmptyString \/ Sdk.text response = None ->
  sendMessage ext this message = Returned "I couldn't generate a response.".
Proof.
  intros Hcall Hempty.
  unfold sendMessage. rewrite Hcall. simpl.
  destruct Hempty as [-> | ->]; reflexivity.
Qed.

Lemma sendMessage_empty_reply_witness :
  sendMessage (Sample.mock None [] (Returned (Some EmptyString))) Sample.session "And the water?"
  = Returned "I couldn't generate a response.".
Proof.
  apply (sendMessage_empty_reply_gives_fallback
           (Sample.mock None [] (Returned (Some EmptyString))) Sample.session
           "And the water?" (Sample.response_of [] (Some EmptyString))).
  - reflexivity.
  - left. reflexivity.
Defined.

(** The loop skips the parts without inline data. *)
Lemma first_image_skips before rest :
  Forall (fun p => Sdk.inlineData p = None) before ->
  first_image (before ++ rest)%list = first_image rest.
Proof.
  induction 1 as [|p before Hp _ IH]; simpl; [reflexivity|].
  rewrite Hp. exact IH.
Qed.

Lemma first_image_throws ps :
  first_image ps = Threw (Error "No image generated") <->
  Forall (fun p => Sdk.inlineData p = None) ps.
Proof.
  induction ps as [|p ps IH]; simpl.
  - split; [constructor | reflexivity].
  - destruct (Sdk.inlineData p) as [d|] eqn:Hp.
    + split; [discriminate|].
      intros H. inversion H; subst. congruence.
    + rewrite IH. split.
      * intros H. constructor; assumption.
      * intros H. inversion H; assumption.
Qed.

(** C7, as stated, fails in both directions.  The code scans the parts of
    the first candidate only, and takes the first part with [inlineData]
    whatever its MIME type.  An answer whose image is in its second
    candidate holds an inline image part, and the call throws; an answer
    whose only inline data is audio holds none, and the call returns it
    labelled as a PNG. *)
Lemma generateDreamImage_misses_and_mislabels :
  (Claimed.inline_image_parts Sample.image_in_second_candidate = [Sample.png] /\
   generateDreamImage Live (Sample.answering Sample.image_in_second_candidate)
                      (Some (JString "A figure soaring above a silver sea")) Size1K
   = Threw (Error "No image generated")) /\
  (Claimed.inline_image_parts (Sample.response_of [Sample.wav] None) = [] /\
   generateDreamImage Live (Sample.answering (Sample.response_of [Sample.wav] None))
                      (Some (JString "A figure soaring above a silver sea")) Size1K
   = Returned "data:image/png;base64,UklGRg==").
Proof. repeat split. Qed.

(** C7, amended.  The live [generateDreamImage], once the model has
    answered.  When the first candidate of the answer has content with
    parts, whatever the other candidates hold: it returns the data of the
    first of those parts that carries [inlineData], whatever MIME type the
    part declares, behind the prefix of a PNG [data:] URL, and it throws
    "No image generated" exactly when none of those parts carries
    [inlineData].  When there are no candidates, or the first has no
    content, or the content no parts, it throws "No image generated". *)
Theorem generateDreamImage_first_inline_image ext prompt size response :
  generateImage ext (image_request prompt size) = Returned response ->
  (forall ps others txt,
      response
      = Sdk.mkResponse (Some (Sdk.mkCandidate (Some (Sdk.mkContent (Some ps))) :: others)) txt ->
      (forall before part d after,
          ps = (before ++ part :: after)%list ->
          Forall (fun p => Sdk.inlineData p = None) before ->
          Sdk.inlineData part = Some d ->
          generateDreamImage Live ext prompt size
          = Returned ("data:image/png;base64," ++ interpolate (Sdk.data d))) /\
      (generateDreamImage Live ext prompt size = Threw (Error "No image generated") <->
       Forall (fun p => Sdk.inlineData p = None) ps)) /\
  (forall others txt,
      response = Sdk.mkResponse None txt \/
      response = Sdk.mkResponse (Some []) txt \/
      response = Sdk.mkResponse (Some (Sdk.mkCandidate None :: others)) txt \/
      response
      = Sdk.mkResponse (Some (Sdk.mkCandidate (Some (Sdk.mkContent None)) :: others)) txt ->
      generateDreamImage Live ext prompt size = Threw (Error "No image generated")).
Proof.
  intros Hcall. unfold generateDreamImage. rewrite Hcall. cbn [bind]. split.
  - intros ps others txt ->. cbn [content_parts Sdk.candidates Sdk.content Sdk.parts]. split.
    + intros before part d after -> Hbefore Hpart.
      rewrite (first_image_skips before (part :: after) Hbefore).
      simpl. rewrite Hpart. reflexivity.
    + apply first_image_throws.
  - intros others txt [-> | [-> | [-> | ->]]]; reflexivity.
Qed.

Lemma generateDreamImage_first_inline_image_witness :
  generateDreamImage Live (Sample.mock None [Sample.caption; Sample.wav; Sample.png]
                                       (Returned None))
                     (Some (JString "A figure soaring above a silver sea")) Size2K
  = Returned "data:image/png;base64,UklGRg==".
Proof.
  destruct (generateDreamImage_first_inline_image
              (Sample.mock None [Sample.caption; Sample.wav; Sample.png] (Returned None))
              (Some (JString "A figure soaring above a silver sea")) Size2K
              (Sample.response_of [Sample.caption; Sample.wav; Sample.png] None) eq_refl)
    as [Hfirst _].
  destruct (Hfirst [Sample.caption; Sample.wav; Sample.png] [] None eq_refl) as [Hreturns _].
  apply (Hreturns [Sample.caption] Sample.wav
                  (Sdk.mkInline (Some "audio/wav") (Some "UklGRg==")) [Sample.png]).
  - reflexivity.
  - repeat constructor.
  - reflexivity.
Defined.

(** The stock-picture revision never fails and never looks at its arguments. *)
Lemma generateDreamImage_safe ext prompt size :
  generateDreamImage Safe ext prompt size = Returned stock_picture.
Proof. reflexivity. Qed.

Lemma lex_string_escape_char c r :
  lex_string (escape_char c ++ r) = prepend (String c EmptyString) (lex_string r).
Proof.
  destruct c as [[] [] [] [] [] [] [] []]; reflexivity.
Qed.

Lemma append_assoc (a b c : string) : (a ++ b) ++ c = a ++ (b ++ c).
Proof. induction a as [|x a IH]; simpl; [reflexivity | rewrite IH; reflexivity]. Qed.

(** A string literal is read back as the string that was written. *)
Lemma lex_string_escape s r :
  lex_string (escape s ++ String "034"%char r) = Some (s, r).
Proof.
  induction s as [|c s IH].
  - reflexivity.
  - change (escape (String c s)) with (escape_char c ++ escape s).
    rewrite append_assoc, lex_string_escape_char, IH. reflexivity.
Qed.

Lemma parse_value_stringify a n :
  parse_value (6 + n) (stringify a) = Some (to_json a, EmptyString).
Proof.
  unfold stringify, member, dq.
  simpl.
  rewrite lex_string_escape. simpl.
  rewrite lex_string_escape. simpl.
  rewrite lex_string_escape. simpl.
  rewrite lex_string_escape. simpl.
  reflexivity.
Qed.

(** [JSON.parse] reads the text of an analysis back, whatever its strings. *)
Lemma parse_stringify a : Json.parse (stringify a) = Some (to_json a).
Proof.
  unfold Json.parse.
  assert (H : exists n, 2 * String.length (stringify a) + 2 = 6 + n).
  { exists (2 * (String.length (stringify a) - 2)).
    assert (2 <= String.length (stringify a)) by (simpl; lia). lia. }
  destruct H as [n ->]. rewrite parse_value_stringify. reflexivity.
Qed.

Lemma stringify_not_empty a : stringify a <> EmptyString.
Proof. discriminate. Qed.

Lemma to_json_has_shape a : has_shape (to_json a) a.
Proof. repeat split. Qed.

(** C3, as stated, fails: a JSON text that lacks three of the four fields
    is returned as it was parsed; nothing is thrown. *)
Lemma analyzeDreamAudio_returns_unvalidated_value :
  conforms Sample.partial_value = false /\
  analyzeDreamAudio Live (Sample.mock (Some Sample.partial_text) [] (Returned None))
                    Sample.recording
  = Returned Sample.partial_value.
Proof. split; reflexivity. Qed.

(** C3, amended.  When the response has a non-empty text:
    - if the text is valid JSON, [analyzeDreamAudio] returns the parsed
      value as it is, whatever its shape;
    - so if the value has the four fields of [a], the returned value has
      exactly those strings; in particular when the text is the JSON text
      of an analysis [a], it returns the object with the four strings of [a];
    - it throws exactly when the text is not valid JSON, and what it throws
      is the [SyntaxError] of [JSON.parse]. *)
Theorem analyzeDreamAudio_returns_what_it_parses rev ext blob base64 response text :
  readAsDataURL ext blob = Returned base64 ->
  generateContent ext (analysis_request rev blob (split_comma_1 base64)) = Returned response ->
  Sdk.text response = Some text ->
  text <> EmptyString ->
  (forall v, Json.parse text = Some v -> analyzeDreamAudio rev ext blob = Returned v) /\
  (forall v a, Json.parse text = Some v -> has_shape v a ->
     exists r, analyzeDreamAudio rev ext blob = Returned r /\ has_shape r a) /\
  (forall a, text = stringify a ->
     analyzeDreamAudio rev ext blob = Returned (to_json a) /\ has_shape (to_json a) a) /\
  ((exists e, analyzeDreamAudio rev ext blob = Threw e) <-> Json.parse text = None) /\
  (forall e, analyzeDreamAudio rev ext blob = Threw e -> exn_name e = "SyntaxError").
Proof.
  intros Hread Hcall Htext Hne.
  rewrite (analyzeDreamAudio_text rev ext blob base64 response Hread Hcall), Htext.
  destruct (text =? "")%string eqn:E; [apply String.eqb_eq in E; contradiction|].
  unfold JSON_parse.
  destruct (Json.parse text) as [v|] eqn:Hparse.
  - split; [|split; [|split; [|split; [split|]]]].
    + intros v' [= ->]. reflexivity.
    + intros v' a [= ->] Hshape. exists v'. split; [reflexivity | exact Hshape].
    + intros a ->. rewrite parse_stringify in Hparse. injection Hparse as <-.
      split; [reflexivity | apply to_json_has_shape].
    + intros [e He]. discriminate.
    + discriminate.
    + intros e He. discriminate.
  - split; [|split; [|split; [|split; [split|]]]].
    + discriminate.
    + discriminate.
    + intros a ->. rewrite parse_stringify in Hparse. discriminate.
    + reflexivity.
    + eexists. reflexivity.
    + intros e [= <-]. reflexivity.
Qed.

Lemma analyzeDreamAudio_returns_what_it_parses_witness :
  exists r,
    analyzeDreamAudio Live (Sample.mock (Some (stringify Sample.dream)) [] (Returned None))
                      Sample.recording = Returned r /\
    has_shape r Sample.dream.
Proof.
  destruct (analyzeDreamAudio_returns_what_it_parses
              Live (Sample.mock (Some (stringify Sample.dream)) [] (Returned None))
              Sample.recording "data:audio/webm;base64,UklGRg=="
              (Sample.response_of [] (Some (stringify Sample.dream)))
              (stringify Sample.dream) eq_refl eq_refl eq_refl)
    as (_ & Hshape & _).
  - discriminate.
  - apply (Hshape (to_json Sample.dream) Sample.dream).
    + reflexivity.
    + repeat split.
Defined.

(** A text with a quote, a backslash and a line feed in it comes back as it
    was given. *)
Example analyzeDreamAudio_escaped_strings :
  let a := mkAnalysis ("He said " ++ dq ++ "fly" ++ dq) (bytes [92; 10]) "sea" "awe" in
  analyzeDreamAudio Safe (Sample.mock (Some (stringify a)) [] (Returned None)) Sample.recording
  = Returned (to_json a).
Proof. reflexivity. Qed.

(* ================================================================== *)
(** ** Properties of the application state machine *)
(* ================================================================== *)

Lemma get_returns_not_null a key p :
  Json.get a key = Returned p -> nullable a <> None.
Proof. destruct a; simpl; intros H; discriminate. Qed.

Lemma to_idle_with_error_message e prev :
  exists msg, error (App.to_idle_with_error e prev) = Some msg /\ msg <> EmptyString.
Proof.
  eexists. split; [reflexivity|].
  apply or_else_nonempty. discriminate.
Qed.

Lemma reachable_in_turn_reachable w : App.reachable_in_turn w -> App.reachable w.
Proof.
  induction 1 as [|e w w' _ IH _ Hfire]; [constructor|].
  exact (App.reach_fire e w w' IH Hfire).
Qed.

Lemma reachable_holds_what_its_step_needs w :
  App.reachable w -> holds_what_its_step_needs (App.current w).
Proof.
  induction 1 as [|e w w' _ IH Hfire].
  - split; discriminate.
  - destruct e as [state blob|n outcome|n outcome| |size]; simpl in Hfire.
    + injection Hfire as <-. split; discriminate.
    + destruct (nth_error (App.suspended w) n) as [[state blob|state a]|];
        try discriminate.
      injection Hfire as <-.
      destruct outcome as [a|e]; simpl; [|split; discriminate].
      destruct (Json.get a "visualPrompt") as [p|e] eqn:Hget; simpl;
        [|split; discriminate].
      split; [|discriminate].
      intros _. exact (get_returns_not_null a _ p Hget).
    + destruct (nth_error (App.suspended w) n) as [[state blob|state a]|];
        try discriminate.
      injection Hfire as <-.
      destruct outcome as [url|e]; simpl; split; discriminate.
    + injection Hfire as <-. split; discriminate.
    + injection Hfire as <-. exact IH.
Qed.

Lemma reachable_in_turn_in_step w : App.reachable_in_turn w -> in_step w.
Proof.
  induction 1 as [|e w w' _ IH Hturn Hfire].
  - left. split; reflexivity.
  - destruct w as [s susp cs]. unfold in_step in IH. simpl in IH.
    destruct e as [state blob|n outcome|n outcome| |size]; simpl in Hfire, Hturn.
    + destruct Hturn as [Hidle ->]. injection Hfire as <-.
      unfold in_step; simpl.
      destruct IH as [[_ Hurl]|[Hc _]]; [|congruence].
      split; [reflexivity | exact Hurl].
    + destruct susp as [|[state blob|state a] [|? ?]]; try contradiction;
        destruct n as [|[|n]]; simpl in Hfire; try discriminate.
      injection Hfire as <-. destruct IH as [_ Hurl].
      unfold in_step, App.after_analysis.
      destruct outcome as [a|e]; simpl.
      * destruct (Json.get a "visualPrompt") as [p|e] eqn:Hget; simpl.
        -- repeat split; [exact (get_returns_not_null a _ p Hget) | exact Hurl].
        -- left. split; [reflexivity | exact Hurl].
      * left. split; [reflexivity | exact Hurl].
    + destruct susp as [|[state blob|state a] [|? ?]]; try contradiction;
        destruct n as [|[|n]]; simpl in Hfire; try discriminate.
      injection Hfire as <-. destruct IH as (_ & Ha & Hurl).
      unfold in_step, App.after_image.
      destruct outcome as [url|e]; simpl.
      * right. repeat split; [exact Ha | discriminate].
      * left. split; [reflexivity | exact Hurl].
    + subst susp. injection Hfire as <-. left. split; reflexivity.
    + injection Hfire as <-. unfold in_step; simpl.
      destruct susp as [|[state blob|state a] [|? ?]]; exact IH.
Qed.

(** C1, as stated, fails: when the analysis succeeds and the image call finds
    no image, the application is back in [idle] and still holds the analysis. *)
Lemma idle_after_image_failure_still_holds_analysis :
  App.run [ App.RecordingComplete App.initial Sample.recording;
            App.AnalysisSettled 0 (Returned (to_json Sample.dream));
            App.ImageSettled 0 Sample.no_image ]
          App.init = Some Sample.image_failed /\
  App.reachable_in_turn Sample.image_failed /\
  step (App.current Sample.image_failed) = idle /\
  analysis (App.current Sample.image_failed) = Some (to_json Sample.dream) /\
  ~ (analysis (App.current Sample.image_failed) <> None <->
     step (App.current Sample.image_failed) = generating_image \/
     step (App.current Sample.image_failed) = complete).
Proof.
  split; [reflexivity|]. split; [|split; [reflexivity|split; [reflexivity|]]].
  - apply (App.turn_fire (App.ImageSettled 0 Sample.no_image)
                         Sample.analysed Sample.image_failed);
      [|exact I|reflexivity].
    apply (App.turn_fire (App.AnalysisSettled 0 (Returned (to_json Sample.dream)))
                         Sample.handed_over Sample.analysed);
      [|exact I|reflexivity].
    apply (App.turn_fire (App.RecordingComplete App.initial Sample.recording)
                         App.init Sample.handed_over);
      [|split; reflexivity|reflexivity].
    constructor.
  - intros [H _].
    assert (Hs : analysis (App.current Sample.image_failed) <> None) by discriminate.
    destruct (H Hs) as [Hg|Hc]; discriminate.
Qed.

(** C1, amended.  In every reachable state, [generating_image] comes with
    an analysis and [complete] with an image; when dreams are processed one
    at a time, [complete] also comes with an analysis and an image is held
    in [complete] only.  The error transition goes to [idle] with a
    non-empty message and keeps the analysis and the image reference it
    found: after it, [idle] may hold an analysis. *)
Theorem analysis_and_image_follow_the_step w :
  App.reachable w ->
  let s := App.current w in
  (step s = generating_image -> analysis s <> None) /\
  (step s = complete -> imageUrl s <> None) /\
  (App.reachable_in_turn w ->
     (step s = generating_image \/ step s = complete -> analysis s <> None) /\
     (imageUrl s <> None <-> step s = complete)) /\
  (forall e,
     step (App.to_idle_with_error e s) = idle /\
     analysis (App.to_idle_with_error e s) = analysis s /\
     imageUrl (App.to_idle_with_error e s) = imageUrl s /\
     exists msg, error (App.to_idle_with_error e s) = Some msg /\ msg <> EmptyString).
Proof.
  intros Hreach s.
  destruct (reachable_holds_what_its_step_needs w Hreach) as [Hgen Hcomplete].
  split; [exact Hgen|]. split; [exact Hcomplete|]. split.
  - intros Hturn. apply reachable_in_turn_in_step in Hturn.
    unfold in_step in Hturn. fold s in Hturn.
    destruct (App.suspended w) as [|[state blob|state a] [|? ?]]; try contradiction.
    + destruct Hturn as [[Hidle Hurl]|(Hc & Ha & Hurl)].
      * split; [intros [H|H]; congruence|].
        split; [intros H; contradiction | intros H; congruence].
      * split; [intros _; exact Ha|]. split; [intros _; exact Hc | intros _; exact Hurl].
    + destruct Hturn as [Hstep Hurl].
      split; [intros [H|H]; congruence|].
      split; [intros H; contradiction | intros H; congruence].
    + destruct Hturn as (Hstep & Ha & Hurl).
      split; [intros _; exact Ha|].
      split; [intros H; contradiction | intros H; congruence].
  - intros e. repeat split. apply to_idle_with_error_message.
Qed.

Lemma pictured_reachable : App.reachable_in_turn Sample.pictured.
Proof.
  apply (App.turn_fire (App.ImageSettled 0 (Returned stock_picture))
                       Sample.analysed Sample.pictured);
    [|exact I|reflexivity].
  apply (App.turn_fire (App.AnalysisSettled 0 (Returned (to_json Sample.dream)))
                       Sample.handed_over Sample.analysed);
    [|exact I|reflexivity].
  apply (App.turn_fire (App.RecordingComplete App.initial Sample.recording)
                       App.init Sample.handed_over);
    [|split; reflexivity|reflexivity].
  constructor.
Qed.

Lemma analysis_and_image_follow_the_step_witness :
  step (App.current Sample.pictured) = complete /\
  analysis (App.current Sample.pictured) <> None /\
  imageUrl (App.current Sample.pictured) <> None.
Proof.
  destruct (analysis_and_image_follow_the_step Sample.pictured
              (reachable_in_turn_reachable _ pictured_reachable))
    as (_ & Himage & Hturn & _).
  destruct (Hturn pictured_reachable) as [Hanalysis _].
  split; [reflexivity|]. split.
  - apply Hanalysis. right. reflexivity.
  - apply Himage. reflexivity.
Defined.

(** C4.  When the model's response has no text (missing or empty),
    [analyzeDreamAudio] throws "No response from Gemini"; and when the
    handler waiting for that analysis is resumed with it, whatever the step
    (in particular [analyzing]), the application is in [idle], not
    processing, with that non-empty message as its error.  A failure of the
    image call, awaited in [generating_image], unwinds the same way. *)
Theorem no_content_fails_and_unwinds_to_idle rev ext blob base64 response :
  readAsDataURL ext blob = Returned base64 ->
  generateContent ext (analysis_request rev blob (split_comma_1 base64)) = Returned response ->
  Sdk.text response = None \/ Sdk.text response = Some EmptyString ->
  analyzeDreamAudio rev ext blob = Threw (Error "No response from Gemini") /\
  (forall w n state,
     nth_error (App.suspended w) n = Some (App.AwaitAnalysis state blob) ->
     exists w',
       App.fire (App.AnalysisSettled n (analyzeDreamAudio rev ext blob)) w = Some w' /\
       step (App.current w') = idle /\
       isProcessing (App.current w') = false /\
       error (App.current w') = Some "No response from Gemini" /\
       "No response from Gemini" <> EmptyString) /\
  (forall w n state a e,
     nth_error (App.suspended w) n = Some (App.AwaitImage state a) ->
     exists w' msg,
       App.fire (App.ImageSettled n (Threw e)) w = Some w' /\
       step (App.current w') = idle /\
       error (App.current w') = Some msg /\ msg <> EmptyString).
Proof.
  intros Hread Hcall Hempty.
  assert (Hthrow : analyzeDreamAudio rev ext blob = Threw (Error "No response from Gemini")).
  { rewrite (analyzeDreamAudio_text rev ext blob base64 response Hread Hcall).
    destruct Hempty as [-> | ->]; reflexivity. }
  split; [exact Hthrow|]. split.
  - intros w n state Hnth. rewrite Hthrow. simpl. rewrite Hnth.
    eexists. split; [reflexivity|].
    simpl. repeat split. discriminate.
  - intros w n state a e Hnth. simpl. rewrite Hnth.
    destruct (to_idle_with_error_message e (App.current (App.drop n w))) as (msg & Hmsg & Hne).
    eexists. exists msg. split; [reflexivity|].
    simpl. repeat split; assumption.
Qed.

Lemma no_content_fails_and_unwinds_to_idle_witness :
  step (App.current Sample.handed_over) = analyzing /\
  exists w',
    App.fire (App.AnalysisSettled 0
                (analyzeDreamAudio Live (Sample.mock None [] (Returned None)) Sample.recording))
             Sample.handed_over = Some w' /\
    step (App.current w') = idle /\
    error (App.current w') = Some "No response from Gemini".
Proof.
  split; [reflexivity|].
  destruct (no_content_fails_and_unwinds_to_idle
              Live (Sample.mock None [] (Returned None)) Sample.recording
              "data:audio/webm;base64,UklGRg==" (Sample.response_of [] None)
              eq_refl eq_refl (or_introl eq_refl))
    as (_ & Hunwind & _).
  destruct (Hunwind Sample.handed_over 0 App.initial eq_refl)
    as (w' & Hfire & Hstep & _ & Herror & _).
  exists w'. repeat split; assumption.
Defined.

(** C5.  [reset] (from any step, [complete] in particular) clears analysis,
    image and error, returns to [idle], keeps the chosen resolution, and
    also clears audioBlob, isProcessing and isRecording. *)
Theorem reset_clears_all_but_the_resolution w :
  exists w',
    App.fire App.Reset w = Some w' /\
    let s := App.current w in
    let s' := App.current w' in
    analysis s' = None /\ imageUrl s' = None /\ error s' = None /\
    step s' = idle /\
    imageSize s' = imageSize s /\
    audioBlob s' = None /\ isProcessing s' = false /\ isRecording s' = false.
Proof.
  eexists. split; [reflexivity|]. simpl. repeat split.
Qed.

(** From a [complete] state with the 4K resolution chosen. *)
Example reset_from_complete_keeps_4K :
  let w := App.update (App.setImageSize Size4K) Sample.pictured in
  step (App.current w) = complete /\
  option_map App.current (App.fire App.Reset w)
  = Some (mkState None None None Size4K false false idle None).
Proof. split; reflexivity. Qed.

(* ================================================================== *)
(** ** Properties of the recorder *)
(* ================================================================== *)

(** When the callback returns, [onstop] stops every track and cancels the
    frame whose handle the component holds. *)
Lemma onstop_releases_when_the_callback_returns (W : Type)
    (mr : R.MediaRecorder W) (l : R.Local W) (w w' : W) id :
  R.onRecordingComplete (R.closure mr) (new_Blob (R.chunksRef l) "audio/webm") w = (w', None) ->
  R.animationFrameRef l = Some id -> id <> 0 -> R.scheduled l = [id] ->
  exists l',
    R.onstop mr l w = (l', w', None) /\ R.released l' /\ R.halted l'.
Proof.
  intros Hcb Href Hid Hsched. unfold R.onstop. rewrite Hcb.
  eexists. split; [reflexivity|]. split.
  - unfold R.released. simpl. unfold R.stop_tracks.
    induction (R.stream mr); simpl; constructor; [reflexivity | assumption].
  - unfold R.halted, R.stopVisualizer. rewrite Href.
    destruct (Nat.eqb id 0) eqn:E; [apply Nat.eqb_eq in E; contradiction|].
    assert (Hq : R.scheduled (R.cancelAnimationFrame id l) = []).
    { simpl. rewrite Hsched. simpl. rewrite Nat.eqb_refl. reflexivity. }
    destruct (R.audioContextRef (R.cancelAnimationFrame id l)); simpl; simpl in Hq; exact Hq.
Qed.

(** When the callback throws, [onstop] ends there: the tracks and the
    scheduled frames are as they were. *)
Lemma onstop_stops_short_when_the_callback_throws (W : Type)
    (mr : R.MediaRecorder W) (l : R.Local W) (w w' : W) e :
  R.onRecordingComplete (R.closure mr) (new_Blob (R.chunksRef l) "audio/webm") w = (w', Some e) ->
  exists l',
    R.onstop mr l w = (l', w', Some e) /\
    R.scheduled l' = R.scheduled l /\
    option_map (@R.stream W) (R.mediaRecorderRef l') = Some (R.stream mr).
Proof.
  intros Hcb. unfold R.onstop. rewrite Hcb.
  eexists. split; [reflexivity|]. split; reflexivity.
Qed.

(** C2 fails on the code.  A recorder with one live track and a
    running visualizer is told to stop; its completion callback throws.
    After [onstop] the track is still live and the frame is still
    scheduled.  With a callback that returns, both are released. *)
Theorem onstop_leaks_when_the_callback_throws :
  (let '(l', _, thrown) :=
     R.onstop (Sample.its_recorder Sample.throwing)
              (Sample.told_to_stop Sample.throwing) tt in
   thrown = Some (Error "callback failed") /\
   option_map (@R.stream unit) (R.mediaRecorderRef l') = Some [R.live] /\
   R.scheduled l' = [1] /\
   ~ R.released l' /\ ~ R.halted l') /\
  (let '(l', _, thrown) :=
     R.onstop (Sample.its_recorder Sample.quiet)
              (Sample.told_to_stop Sample.quiet) tt in
   thrown = None /\ R.released l' /\ R.halted l').
Proof.
  split.
  - simpl. repeat split.
    + unfold R.released. simpl. intros H. inversion H; discriminate.
    + unfold R.halted. simpl. discriminate.
  - simpl. repeat split.
    unfold R.released. simpl. repeat constructor.
Qed.

(* ================================================================== *)
(** ** Properties of the chat *)
(* ================================================================== *)

(** One white-space sequence at the head is stripped in one round. *)
Lemma strip_any_whitespace w s :
  In w whitespace ->
  strip_any whitespace (w ++ s) = Some s /\ 1 <= String.length (w ++ s).
Proof.
  unfold whitespace. simpl.
  intros H.
  repeat (destruct H as [<- | H]; [split; [reflexivity | simpl; lia]|]).
  contradiction.
Qed.

Lemma length_after_whitespace w s :
  In w whitespace -> String.length s < String.length (w ++ s).
Proof.
  unfold whitespace. simpl.
  intros H.
  repeat (destruct H as [<- | H]; [simpl; lia|]).
  contradiction.
Qed.

Lemma strip_loop_S pats fuel s :
  strip_loop pats (S fuel) s =
    match strip_any pats s with
    | Some r => strip_loop pats fuel r
    | None => s
    end.
Proof. reflexivity. Qed.

Lemma strip_loop_whitespace_only s :
  WhitespaceOnly s ->
  forall fuel, String.length s <= fuel -> strip_loop whitespace fuel s = EmptyString.
Proof.
  induction 1 as [|w s Hw _ IH]; intros fuel Hfuel.
  - destruct fuel; reflexivity.
  - pose proof (length_after_whitespace w s Hw) as Hlen.
    destruct fuel as [|fuel]; [lia|].
    rewrite strip_loop_S. destruct (strip_any_whitespace w s Hw) as [-> _].
    apply IH. lia.
Qed.

(** [trim] leaves nothing of a string made of white space. *)
Lemma trim_whitespace_only s : WhitespaceOnly s -> trim s = EmptyString.
Proof.
  intros H. unfold trim, trimStart.
  rewrite (strip_loop_whitespace_only s H _ (le_n _)). reflexivity.
Qed.

(** C10.  With an input that is empty or white space only, or while a reply
    is pending, or before the session exists, [handleSend] changes nothing
    and calls nothing: the state is the same and so is a whole turn. *)
Theorem handleSend_guard_is_a_no_op st :
  WhitespaceOnly (ChatInterface.input st) \/
  ChatInterface.isLoading st = true \/
  ChatInterface.chatSessionRef st = None ->
  ChatInterface.handleSend st = (st, None) /\
  forall ext, ChatInterface.turn ext st = st.
Proof.
  intros Hguard.
  assert (H : ChatInterface.handleSend st = (st, None)).
  { unfold ChatInterface.handleSend.
    destruct (trim (ChatInterface.input st) =? "")%string eqn:Etrim; [reflexivity|].
    destruct Hguard as [Hws | [Hloading | Hsession]].
    - rewrite (trim_whitespace_only _ Hws) in Etrim. discriminate.
    - rewrite Hloading. destruct (ChatInterface.chatSessionRef st); reflexivity.
    - rewrite Hsession. reflexivity. }
  split; [exact H|].
  intros ext. unfold ChatInterface.turn. rewrite H. reflexivity.
Qed.

Lemma handleSend_guard_is_a_no_op_witness :
  let blank := ChatInterface.setInput (" " ++ bytes [9; 194; 160]) Sample.chatting in
  ChatInterface.handleSend blank = (blank, None).
Proof.
  apply (handleSend_guard_is_a_no_op
           (ChatInterface.setInput (" " ++ bytes [9; 194; 160]) Sample.chatting)).
  left. simpl.
  apply (ws_more " " _); [simpl; tauto|].
  apply (ws_more (bytes [9]) _); [simpl; tauto|].
  apply (ws_more (bytes [194; 160]) _); [simpl; tauto|].
  constructor.
Defined.

(** C9.  When [sendMessage] throws during a turn, the turn ends with the
    messages there were, then the user's message, then the apology as a
    model message; the session handle is the same and nothing is pending.
    Whatever the state the settlement finds, the [catch] only appends. *)
Theorem chat_failure_appends_an_apology ext st session e :
  ChatInterface.chatSessionRef st = Some session ->
  ChatInterface.isLoading st = false ->
  trim (ChatInterface.input st) <> EmptyString ->
  chat_sendMessage ext (chat session) (ChatInterface.input st) = Threw e ->
  ChatInterface.turn ext st =
    ChatInterface.mkChatState
      (ChatInterface.messages st ++
         [mkMessage user (ChatInterface.input st);
          mkMessage model "I'm sorry, I'm having trouble connecting to the dream realm right now."])
      EmptyString false (Some session) /\
  forall st', ChatInterface.handleSend_resume (Threw e) st' =
    ChatInterface.mkChatState
      (ChatInterface.messages st' ++
         [mkMessage model "I'm sorry, I'm having trouble connecting to the dream realm right now."])
      (ChatInterface.input st') false (ChatInterface.chatSessionRef st').
Proof.
  intros Hsession Hloading Hinput Hthrow.
  split; [|reflexivity].
  unfold ChatInterface.turn, ChatInterface.handleSend.
  destruct (trim (ChatInterface.input st) =? "")%string eqn:Etrim;
    [apply String.eqb_eq in Etrim; contradiction|].
  rewrite Hsession, Hloading. unfold sendMessage. rewrite Hthrow. simpl.
  unfold ChatInterface.handleSend_resume. simpl.
  rewrite <- app_assoc. reflexivity.
Qed.

Lemma chat_failure_appends_an_apology_witness :
  ChatInterface.messages
    (ChatInterface.turn (Sample.mock None [] (Threw (Error "fetch failed"))) Sample.chatting)
  = [ mkMessage user "Why was I flying?";
      mkMessage model "Flight often stands for release.";
      mkMessage user "And the water?";
      mkMessage model "I'm sorry, I'm having trouble connecting to the dream realm right now." ].
Proof.
  destruct (chat_failure_appends_an_apology
              (Sample.mock None [] (Threw (Error "fetch failed"))) Sample.chatting
              Sample.session (Error "fetch failed") eq_refl eq_refl)
    as [Hturn _].
  - discriminate.
  - reflexivity.
  - rewrite Hturn. reflexivity.
Defined.

(* ================================================================== *)
(** ** Properties of the page *)
(* ================================================================== *)

Lemma nth_error_snoc {A} (l : list A) x : nth_error (l ++ [x]) (length l) = Some x.
Proof. rewrite nth_error_app2, Nat.sub_diag by lia. reflexivity. Qed.

Lemma drop_snoc {A} (l : list A) x :
  (firstn (length l) (l ++ [x]) ++ skipn (S (length l)) (l ++ [x]))%list = l.
Proof.
  rewrite firstn_app, Nat.sub_diag, firstn_all.
  rewrite skipn_all2 by (rewrite length_app; simpl; lia).
  simpl. rewrite !app_nil_r. reflexivity.
Qed.

Lemma render_idle w i gone :
  step (App.current w) = idle ->
  Page.render w (Some i) gone = Page.mkPage w (Some i) gone.
Proof. intros H. unfold Page.render. rewrite H. reflexivity. Qed.

Lemma world_render w r gone : Page.world (Page.render w r gone) = w.
Proof. unfold Page.render. destruct (step (App.current w)), r; reflexivity. Qed.

Lemma ondataavailable_keeps (W : Type) data (l : R.Local W) :
  R.isRecording (R.ondataavailable data l) = R.isRecording l /\
  R.mediaRecorderRef (R.ondataavailable data l) = R.mediaRecorderRef l /\
  R.starting (R.ondataavailable data l) = R.starting l.
Proof.
  unfold R.ondataavailable. destruct (Nat.ltb 0 (size data)); repeat split.
Qed.

Lemma frame_keeps (W : Type) id (l : R.Local W) :
  R.isRecording (R.frame id l) = R.isRecording l /\
  R.mediaRecorderRef (R.frame id l) = R.mediaRecorderRef l /\
  R.starting (R.frame id l) = R.starting l /\
  R.chunksRef (R.frame id l) = R.chunksRef l.
Proof.
  unfold R.frame. destruct (existsb (Nat.eqb id) (R.scheduled l)); repeat split.
Qed.

Lemma stopVisualizer_keeps (W : Type) (l : R.Local W) :
  R.isRecording (R.stopVisualizer l) = R.isRecording l /\
  R.mediaRecorderRef (R.stopVisualizer l) = R.mediaRecorderRef l /\
  R.starting (R.stopVisualizer l) = R.starting l.
Proof.
  unfold R.stopVisualizer.
  destruct (R.animationFrameRef l) as [id|]; [destruct (Nat.eqb id 0)|];
    match goal with
    | |- context [match R.audioContextRef ?x with _ => _ end] =>
        destruct (R.audioContextRef x)
    end; repeat split.
Qed.

(** The stop handler of a recorder whose closure holds props of [App]: the
    callback is [handleRecordingComplete], which does not throw, so the
    handler runs to its end. *)
Lemma onstop_of_app mr l w state :
  R.closure mr = Page.props_of state ->
  R.onstop mr l w =
  (R.set_mediaRecorderRef
     (Some (R.mkRecorder R.inactive (R.stop_tracks (R.stream mr)) (Page.props_of state)))
     (R.stopVisualizer l),
   App.handleRecordingComplete state (new_Blob (R.chunksRef l) "audio/webm") w,
   None).
Proof. intros H. unfold R.onstop. rewrite H. reflexivity. Qed.

Lemma Forall_drop {A} (P : A -> Prop) n l :
  Forall P l -> Forall P (firstn n l ++ skipn (S n) l).
Proof.
  intros H. revert n. induction H as [|x l Hx Hl IH]; intros [|n]; simpl.
  - constructor.
  - constructor.
  - exact Hl.
  - constructor; [exact Hx | apply IH].
Qed.

Lemma Forall_nth_error_holds {A} (P : A -> Prop) l n x :
  Forall P l -> nth_error l n = Some x -> P x.
Proof.
  intros H Hn. rewrite Forall_forall in H. apply H. eapply nth_error_In; eassumption.
Qed.

Lemma Forall_replace {A} (P : A -> Prop) x l :
  P x -> Forall P l -> forall n, Forall P (Page.replace n x l).
Proof.
  intros Hx H. induction H as [|y l Hy Hl IH]; intros [|n]; unfold Page.replace; simpl.
  - constructor; [exact Hx | constructor].
  - constructor; [exact Hx | constructor].
  - constructor; [exact Hx | exact Hl].
  - constructor; [exact Hy | apply IH].
Qed.

Lemma fresh_closed_over_props : Page.closed_over_props Page.fresh.
Proof. repeat split; constructor. Qed.

(** What an event of the browser does to an instance and to the
    application: nothing to the application, unless it is a stop event,
    which calls [handleRecordingComplete] with a blob of type audio/webm
    made of the chunks of the instance. *)
Lemma browser_effect m b i w i' w' :
  Page.closed_over_props i ->
  Page.browser m b i w = Some (i', w') ->
  Page.closed_over_props i' /\
  (w' = w \/
   exists r state,
     b = Page.RecorderStopped r /\
     w' = App.handleRecordingComplete
            state (new_Blob (R.chunksRef (Page.cells i)) "audio/webm") w).
Proof.
  destruct i as [l os]. intros (Hst & Href & Hos) Hb.
  cbn [Page.cells Page.orphans] in Hst, Href, Hos.
  destruct b as [n outcome|r data|r|id]; unfold Page.browser in Hb;
    cbn [Page.cells Page.orphans] in Hb.
  - destruct (nth_error (R.starting l) n) as [captured|] eqn:Hn; [|discriminate].
    injection Hb as <- <-. split; [|left; reflexivity].
    pose proof (Forall_nth_error_holds _ _ _ _ Hst Hn) as Hcap.
    assert (Hleft : Forall (fun mr => Page.from_app (R.closure mr))
                           (Page.left_to_itself l os)).
    { unfold Page.left_to_itself. destruct (R.mediaRecorderRef l) as [old|]; [|exact Hos].
      apply Forall_app. split; [exact Hos|]. constructor; [exact Href | constructor]. }
    unfold Page.closed_over_props.
    destruct m, outcome as [stream|e]; cbn; repeat split;
      try (apply Forall_drop; exact Hst); assumption.
  - destruct (Page.the_recorder r (Page.mkInstance l os)) as [mr|]; [|discriminate].
    destruct (ondataavailable_keeps _ data l) as (_ & Hkeep & Hkeep').
    destruct (R.state mr); try discriminate; injection Hb as <- <-;
      (split; [|left; reflexivity]);
      unfold Page.closed_over_props; cbn [Page.cells Page.orphans];
      rewrite Hkeep, Hkeep'; repeat split; assumption.
  - destruct (Page.the_recorder r (Page.mkInstance l os)) as [mr|] eqn:Hmr; [|discriminate].
    assert (Hclosure : Page.from_app (R.closure mr)).
    { destruct r as [|j]; simpl in Hmr.
      - rewrite Hmr in Href. exact Href.
      - exact (Forall_nth_error_holds _ _ _ _ Hos Hmr). }
    destruct Hclosure as [state Hclosure].
    rewrite (onstop_of_app mr l w state Hclosure) in Hb.
    destruct (stopVisualizer_keeps _ l) as (_ & _ & Hkeep).
    destruct (R.state mr); try discriminate;
      destruct r as [|j]; cbn in Hb; injection Hb as <- <-.
    1, 3: split; [|right; exists Page.Referenced, state; split; reflexivity];
      unfold Page.closed_over_props; cbn; rewrite Hkeep;
      repeat split; [exact Hst | eexists; reflexivity | exact Hos].
    1, 2: split; [|right; exists (Page.Orphaned j), state; split; reflexivity];
      unfold Page.closed_over_props; cbn; rewrite Hkeep;
      repeat split; [exact Hst | exact Href |];
      apply Forall_replace; [eexists; reflexivity | exact Hos].
  - injection Hb as <- <-. split; [|left; reflexivity].
    destruct (frame_keeps _ id l) as (_ & Hkeep & Hkeep' & _).
    unfold Page.closed_over_props. cbn [Page.cells Page.orphans].
    rewrite Hkeep, Hkeep'. repeat split; assumption.
Qed.

Lemma click_record_closed_over_props state i :
  Page.closed_over_props i ->
  Page.closed_over_props
    (Page.mkInstance (R.click_record (Page.props_of state) (Page.cells i)) (Page.orphans i)).
Proof.
  destruct i as [l os]. intros (Hst & Href & Hos).
  cbn [Page.cells Page.orphans] in *.
  unfold Page.closed_over_props, R.click_record, R.stopRecording, R.startRecording.
  cbn [Page.cells Page.orphans].
  destruct (R.isRecording l).
  - destruct (R.mediaRecorderRef l) as [mr|] eqn:Hmr; cbn.
    + repeat split; assumption.
    + rewrite Hmr. repeat split; assumption.
  - cbn. repeat split; [|exact Href | exact Hos].
    apply Forall_app. split; [exact Hst|]. constructor; [|constructor].
    eexists. reflexivity.
Qed.

Lemma well_formed_render w r gone :
  match r with
  | Some i => Page.closed_over_props i
  | None => True
  end ->
  Forall Page.closed_over_props gone ->
  Page.well_formed (Page.render w r gone).
Proof.
  intros Hr Hgone. unfold Page.render, Page.well_formed.
  assert (Hmore : forall i, r = Some i -> Forall Page.closed_over_props (gone ++ [i])).
  { intros i ->. apply Forall_app. split; [exact Hgone|]. constructor; [exact Hr | constructor]. }
  destruct (step (App.current w)) eqn:Hstep, r as [i|];
    cbn [Page.recorder Page.world Page.unmounted]; rewrite ?Hstep;
    (split; [|solve [exact Hgone | exact (Hmore i eq_refl)]]);
    solve [discriminate
          | split; [reflexivity | exact Hr]
          | split; [reflexivity | exact fresh_closed_over_props]].
Qed.

Lemma fire_well_formed e p p' :
  Page.well_formed p -> Page.fire e p = Some p' -> Page.well_formed p'.
Proof.
  intros [Hrec Hgone] Hfire. destruct p as [w r gone].
  cbn [Page.recorder Page.world Page.unmounted] in Hrec, Hgone.
  assert (Hr : match r with Some i => Page.closed_over_props i | None => True end).
  { destruct r as [i|]; [tauto | exact I]. }
  destruct e as [size| | |n outcome|n outcome|[|k] b];
    unfold Page.fire, Page.app_event in Hfire;
    cbn [Page.recorder Page.world Page.unmounted] in Hfire.
  - destruct r as [i|]; [|discriminate]. unfold R.click_size in Hfire.
    destruct (R.isRecording (Page.cells i)); injection Hfire as <-;
      apply well_formed_render; try exact Hgone; destruct i; exact Hr.
  - destruct r as [i|]; [|discriminate]. injection Hfire as <-.
    apply well_formed_render; [|exact Hgone].
    apply click_record_closed_over_props. exact Hr.
  - destruct (App.fire App.Reset w) as [w'|]; [|discriminate].
    injection Hfire as <-. apply well_formed_render; assumption.
  - destruct (App.fire (App.AnalysisSettled n outcome) w) as [w'|]; [|discriminate].
    injection Hfire as <-. apply well_formed_render; assumption.
  - destruct (App.fire (App.ImageSettled n outcome) w) as [w'|]; [|discriminate].
    injection Hfire as <-. apply well_formed_render; assumption.
  - destruct r as [i|]; [|discriminate].
    destruct (Page.browser true b i w) as [[i' w']|] eqn:Hb; [|discriminate].
    injection Hfire as <-.
    destruct (browser_effect _ _ _ _ _ _ Hr Hb) as [Hi' _].
    apply well_formed_render; assumption.
  - destruct (nth_error gone k) as [i|] eqn:Hk; [|discriminate].
    destruct (Page.browser false b i w) as [[i' w']|] eqn:Hb; [|discriminate].
    injection Hfire as <-.
    pose proof (Forall_nth_error_holds _ _ _ _ Hgone Hk) as Hi.
    destruct (browser_effect _ _ _ _ _ _ Hi Hb) as [Hi' _].
    apply well_formed_render; [exact Hr|].
    apply Forall_replace; assumption.
Qed.

Lemma reachable_well_formed p : Page.reachable p -> Page.well_formed p.
Proof.
  induction 1 as [|e p p' _ IH Hfire].
  - apply well_formed_render; [exact I | constructor].
  - exact (fire_well_formed e p p' IH Hfire).
Qed.

(** Every event of the page is at most one event of the application. *)
Lemma fire_simulated e p p' :
  Page.well_formed p -> Page.fire e p = Some p' ->
  Page.world p' = Page.world p \/
  exists e',
    App.fire e' (Page.world p) = Some (Page.world p') /\
    (forall size, e' = App.SetImageSize size ->
       exists i, Page.recorder p = Some i /\ R.isRecording (Page.cells i) = false).
Proof.
  intros [Hrec Hgone] Hfire. destruct p as [w r gone].
  cbn [Page.recorder Page.world Page.unmounted] in Hrec, Hgone.
  assert (Hstop : forall m b i i' w',
             Page.closed_over_props i -> Page.browser m b i w = Some (i', w') ->
             w' = w \/
             exists e', App.fire e' w = Some w' /\
               (forall size, e' = App.SetImageSize size ->
                  exists i0, r = Some i0 /\ R.isRecording (Page.cells i0) = false)).
  { intros m b i i' w' Hi Hb.
    destruct (browser_effect _ _ _ _ _ _ Hi Hb) as [_ [->|(src & state & _ & ->)]].
    - left. reflexivity.
    - right. eexists (App.RecordingComplete state _). split; [reflexivity | discriminate]. }
  destruct e as [size| | |n outcome|n outcome|[|k] b];
    unfold Page.fire, Page.app_event in Hfire;
    cbn [Page.recorder Page.world Page.unmounted] in Hfire.
  - destruct r as [i|]; [|discriminate]. unfold R.click_size in Hfire.
    destruct (R.isRecording (Page.cells i)) eqn:Hon; injection Hfire as <-;
      rewrite world_render.
    + left. reflexivity.
    + right. exists (App.SetImageSize size). split; [reflexivity|].
      intros _ _. exists i. split; [reflexivity | exact Hon].
  - destruct r as [i|]; [|discriminate]. injection Hfire as <-.
    rewrite world_render. left. reflexivity.
  - destruct (App.fire App.Reset w) as [w'|] eqn:Hf; [|discriminate].
    injection Hfire as <-. rewrite world_render. right.
    eexists. split; [exact Hf | discriminate].
  - destruct (App.fire (App.AnalysisSettled n outcome) w) as [w'|] eqn:Hf; [|discriminate].
    injection Hfire as <-. rewrite world_render. right.
    eexists. split; [exact Hf | discriminate].
  - destruct (App.fire (App.ImageSettled n outcome) w) as [w'|] eqn:Hf; [|discriminate].
    injection Hfire as <-. rewrite world_render. right.
    eexists. split; [exact Hf | discriminate].
  - destruct r as [i|]; [|discriminate].
    destruct (Page.browser true b i w) as [[i' w']|] eqn:Hb; [|discriminate].
    injection Hfire as <-. rewrite world_render.
    apply (Hstop true b i i' w'); [tauto | exact Hb].
  - destruct (nth_error gone k) as [i|] eqn:Hk; [|discriminate].
    destruct (Page.browser false b i w) as [[i' w']|] eqn:Hb; [|discriminate].
    injection Hfire as <-. rewrite world_render.
    apply (Hstop false b i i' w'); [|exact Hb].
    exact (Forall_nth_error_holds _ _ _ _ Hgone Hk).
Qed.

Lemma page_reachable_app_reachable p : Page.reachable p -> App.reachable (Page.world p).
Proof.
  induction 1 as [|e p p' Hreach IH Hfire].
  - constructor.
  - destruct (fire_simulated e p p' (reachable_well_formed p Hreach) Hfire)
      as [->|(e' & He' & _)].
    + exact IH.
    + exact (App.reach_fire e' _ _ IH He').
Qed.

(** No event of the application but [SetImageSize] changes the resolution. *)
Lemma app_fire_keeps_imageSize e w w' :
  (forall size, e <> App.SetImageSize size) ->
  App.fire e w = Some w' ->
  imageSize (App.current w') = imageSize (App.current w).
Proof.
  intros Hne Hfire.
  destruct e as [state blob|n outcome|n outcome| |size]; simpl in Hfire.
  - injection Hfire as <-. reflexivity.
  - destruct (nth_error (App.suspended w) n) as [[state blob|state a]|]; try discriminate.
    injection Hfire as <-. unfold App.after_analysis.
    destruct outcome as [a|e]; [|reflexivity].
    destruct (Json.get a "visualPrompt"); reflexivity.
  - destruct (nth_error (App.suspended w) n) as [[state blob|state a]|]; try discriminate.
    injection Hfire as <-. destruct outcome; reflexivity.
  - injection Hfire as <-. reflexivity.
  - exfalso. exact (Hne size eq_refl).
Qed.

Lemma run_reachable es : forall p p',
  Page.reachable p -> Page.run es p = Some p' -> Page.reachable p'.
Proof.
  induction es as [|e es IH]; intros p p' Hreach Hrun; simpl in Hrun.
  - injection Hrun as <-. exact Hreach.
  - destruct (Page.fire e p) as [p1|] eqn:Hfire; [|discriminate].
    exact (IH p1 p' (Page.reach_fire e p p1 Hreach Hfire) Hrun).
Qed.

(** On every reachable page, while the recorder on the page shows a
    recording in progress its resolution buttons are disabled: a click on
    one changes nothing at all, and no other event changes the resolution
    either. *)
Lemma resolution_buttons_are_inert_while_recording p i :
  Page.reachable p ->
  Page.recorder p = Some i ->
  R.isRecording (Page.cells i) = true ->
  step (App.current (Page.world p)) = idle /\
  (forall size, Page.fire (Page.ClickResolution size) p = Some p) /\
  (forall e p', Page.fire e p = Some p' ->
     imageSize (App.current (Page.world p')) = imageSize (App.current (Page.world p))).
Proof.
  intros Hreach Hrec Hon.
  pose proof (reachable_well_formed p Hreach) as Hwf.
  destruct p as [w r gone]. simpl in Hrec. subst r.
  assert (Hidle : step (App.current w) = idle).
  { destruct Hwf as [Hwf _]. simpl in Hwf. tauto. }
  split; [exact Hidle|]. split.
  - intros size. unfold Page.fire, R.click_size. cbn [Page.recorder Page.world Page.unmounted].
    rewrite Hon. rewrite render_idle by exact Hidle. destruct i. reflexivity.
  - intros e p' Hfire.
    destruct (fire_simulated e _ p' Hwf Hfire) as [Hsame|(e' & He' & Hsize)].
    + rewrite Hsame. reflexivity.
    + apply (app_fire_keeps_imageSize e' _ _); [|exact He'].
      intros size Heq. destruct (Hsize size Heq) as (i' & Hi' & Hoff).
      simpl in Hi'. injection Hi' as <-. congruence.
Qed.

Lemma recording_page_reachable : Page.reachable Sample.recording_page.
Proof.
  apply (run_reachable
           [Page.ClickRecord;
            Page.On Page.Shown (Page.MicrophoneSettled 0 (Returned [R.live]))] Page.start).
  - constructor.
  - reflexivity.
Qed.

Example resolution_click_while_recording_changes_nothing :
  Page.fire (Page.ClickResolution Size4K) Sample.recording_page = Some Sample.recording_page.
Proof.
  destruct (resolution_buttons_are_inert_while_recording
              Sample.recording_page _ recording_page_reachable eq_refl eq_refl)
    as (_ & Hclick & _).
  exact (Hclick Size4K).
Qed.

(** The same stale size on another path.  A dream is being analysed
    (recorded with 1K chosen); the user clicks the header, which resets to
    [idle] and does not cancel the handler; the user chooses 4K; the
    analysis settles: the image request carries 1K, while the state holds
    4K. *)
Example choice_after_a_reset_in_flight_is_not_used :
  Page.run (Sample.one_recording ++ [Page.ClickHeader]) Page.start
  = Some Sample.reset_in_flight /\
  step (App.current (Page.world Sample.reset_in_flight)) = idle /\
  option_map (fun i => R.isRecording (Page.cells i)) (Page.recorder Sample.reset_in_flight)
  = Some false /\
  Page.fire (Page.ClickResolution Size4K) Sample.reset_in_flight = Some Sample.chose_4K /\
  imageSize (App.current (Page.world Sample.chose_4K)) = Size4K /\
  Page.fire (Page.AnalysisSettled 0 (Returned (to_json Sample.dream))) Sample.chose_4K
  = Some Sample.settled_late /\
  imageSize (App.current (Page.world Sample.settled_late)) = Size4K /\
  App.calls (Page.world Sample.settled_late) =
    (App.calls (Page.world Sample.chose_4K) ++
       [App.CallImage (Some (JString "A figure soaring above a silver sea")) Size1K])%list.
Proof.
  split; [vm_compute; reflexivity|]. split; [vm_compute; reflexivity|].
  split; [vm_compute; reflexivity|]. split; [vm_compute; reflexivity|].
  split; [vm_compute; reflexivity|]. split; [vm_compute; reflexivity|].
  split; vm_compute; reflexivity.
Qed.

(** C8.  The second half of the claim fails on the code.  The size handed
    to [generateDreamImage] is [state.imageSize] of the render in which the
    recording was started, not the size the state holds when the call is
    made.  The user clicks record; while the browser has not yet granted
    the microphone the step is [idle] and nothing is being recorded, so the
    resolution buttons are enabled; the user chooses 4K and the state holds
    4K.  The recording is then made, stopped and analysed: the page shows
    the text Generating 4K surrealist visualization, and the request that
    was made carries 1K. *)
Theorem choice_with_the_microphone_pending_is_not_used :
  Page.run [Page.ClickRecord] Page.start = Some Sample.microphone_pending /\
  step (App.current (Page.world Sample.microphone_pending)) = idle /\
  option_map (fun i => R.isRecording (Page.cells i)) (Page.recorder Sample.microphone_pending)
  = Some false /\
  Page.fire (Page.ClickResolution Size4K) Sample.microphone_pending
  = Some Sample.chose_4K_pending /\
  imageSize (App.current (Page.world Sample.chose_4K_pending)) = Size4K /\
  Page.run [ Page.On Page.Shown (Page.MicrophoneSettled 0 (Returned [R.live]));
             Page.ClickRecord;
             Page.On Page.Shown (Page.DataAvailable Page.Referenced Sample.recording);
             Page.On Page.Shown (Page.RecorderStopped Page.Referenced);
             Page.AnalysisSettled 0 (Returned (to_json Sample.dream)) ]
           Sample.chose_4K_pending
  = Some Sample.chosen_late /\
  step (App.current (Page.world Sample.chosen_late)) = generating_image /\
  imageSize (App.current (Page.world Sample.chosen_late)) = Size4K /\
  View.view (fun _ => false) true (App.current (Page.world Sample.chosen_late))
  = View.Main [View.Progress "Painting the Dreamscape..."
                             "Generating 4K surrealist visualization."] /\
  App.calls (Page.world Sample.chosen_late)
  = [ App.CallAnalyze Sample.recording;
      App.CallImage (Some (JString "A figure soaring above a silver sea")) Size1K ].
Proof.
  split; [vm_compute; reflexivity|]. split; [vm_compute; reflexivity|].
  split; [vm_compute; reflexivity|]. split; [vm_compute; reflexivity|].
  split; [vm_compute; reflexivity|]. split; [vm_compute; reflexivity|].
  split; [vm_compute; reflexivity|]. split; [vm_compute; reflexivity|].
  split; vm_compute; reflexivity.
Qed.

(* ================================================================== *)
(** ** Properties of the rest of the program *)
(* ================================================================== *)

(* ================================================================== *)
(** ** Properties of the clock *)
(* ================================================================== *)

Lemma before_colon_digits d r :
  Clock.before_colon (DecimalString.NilEmpty.string_of_uint d ++ String ":" r)
  = DecimalString.NilEmpty.string_of_uint d.
Proof.
  induction d; simpl; try rewrite IHd; reflexivity.
Qed.

Lemma after_colon_digits d r :
  Clock.after_colon (DecimalString.NilEmpty.string_of_uint d ++ String ":" r) = Some r.
Proof.
  induction d; simpl; try rewrite IHd; reflexivity.
Qed.

(** The seconds below a minute, padded: two characters that read back. *)
Lemma padded_seconds r :
  r < 60 ->
  String.length (Clock.padStart 2 "0" (Clock.decimal r)) = 2 /\
  option_map Nat.of_uint
    (DecimalString.NilEmpty.uint_of_string (Clock.padStart 2 "0" (Clock.decimal r)))
  = Some r.
Proof.
  intros H.
  do 60 (destruct r as [|r]; [split; vm_compute; reflexivity|]).
  lia.
Qed.

(** X1.  [formatTime] prints minutes, a colon and exactly two digits of
    seconds, and the printed time reads back as the number of seconds it
    was given: no two durations print alike. *)
Theorem formatTime_reads_back seconds :
  Clock.readTime (Clock.formatTime seconds) = Some seconds /\
  (exists ss,
     Clock.formatTime seconds = Clock.decimal (seconds / 60) ++ ":" ++ ss /\
     String.length ss = 2) /\
  (forall other, Clock.formatTime other = Clock.formatTime seconds -> other = seconds).
Proof.
  assert (Hread : forall n, Clock.readTime (Clock.formatTime n) = Some n).
  { intros n. unfold Clock.readTime, Clock.formatTime.
    pose proof (Nat.div_mod_eq n 60) as Hdm.
    assert (Hlt : n mod 60 < 60) by (apply Nat.mod_upper_bound; discriminate).
    set (q := n / 60) in *. set (m := n mod 60) in *.
    destruct (padded_seconds m Hlt) as [_ Hsecs].
    set (ss := Clock.padStart 2 "0" (Clock.decimal m)) in *.
    unfold Clock.decimal.
    change (":" ++ ss) with (String ":" ss).
    rewrite before_colon_digits, after_colon_digits.
    rewrite DecimalString.NilEmpty.usu.
    destruct (DecimalString.NilEmpty.uint_of_string ss) as [secs|]; [|discriminate].
    cbn [option_map] in Hsecs. injection Hsecs as Hsecs.
    rewrite DecimalNat.Unsigned.of_to, Hsecs.
    f_equal. lia. }
  split; [apply Hread|]. split.
  - eexists. split; [reflexivity|].
    apply padded_seconds. apply Nat.mod_upper_bound. discriminate.
  - intros other Heq.
    assert (H : Clock.readTime (Clock.formatTime other) = Some seconds)
      by (rewrite Heq; apply Hread).
    rewrite Hread in H. injection H as H. exact H.
Qed.

Lemma formatTime_reads_back_witness :
  Clock.formatTime 75 = "1:15" /\
  (Clock.formatTime 75 = Clock.formatTime 75 -> 75 = 75).
Proof.
  destruct (formatTime_reads_back 75) as (_ & _ & Hsame).
  split; [reflexivity | exact (Hsame 75)].
Defined.

Lemma ticks_count k t :
  Clock.interval t = true ->
  Clock.recordingTime (Nat.iter k Clock.tick t) = k + Clock.recordingTime t /\
  Clock.interval (Nat.iter k Clock.tick t) = true.
Proof.
  intros Hon. induction k as [|k [IHt IHi]]; simpl.
  - split; [reflexivity | exact Hon].
  - unfold Clock.tick at 1 3. rewrite IHi. simpl. rewrite IHt. split; reflexivity.
Qed.

Lemma ticks_ignored k t :
  Clock.interval t = false -> Nat.iter k Clock.tick t = t.
Proof.
  intros Hoff. induction k as [|k IH]; simpl; [reflexivity|].
  rewrite IH. unfold Clock.tick. rewrite Hoff. reflexivity.
Qed.

(** X2.  The clock of a recording starts from zero: whatever the timer
    held, after the effect for "not recording" and then "recording", [k]
    seconds later it shows [formatTime k]; once the recording is over it
    shows 0:00 and the passing of time changes nothing. *)
Theorem clock_counts_each_recording_from_zero t k j :
  let running := Nat.iter k Clock.tick (Clock.effect true (Clock.effect false t)) in
  Clock.display running = Clock.formatTime k /\
  Clock.display (Nat.iter j Clock.tick (Clock.effect false running)) = "0:00".
Proof.
  cbv zeta. split.
  - unfold Clock.display.
    destruct (ticks_count k (Clock.effect true (Clock.effect false t)) eq_refl) as [-> _].
    cbn [Clock.effect Clock.recordingTime]. rewrite Nat.add_0_r. reflexivity.
  - rewrite ticks_ignored by reflexivity. reflexivity.
Qed.

(* ================================================================== *)
(** ** More properties of the service *)
(* ================================================================== *)

Lemma upto_comma_all s : Flow.no_comma s = true -> upto_comma s = s.
Proof.
  induction s as [|c s IH]; simpl; [reflexivity|].
  destruct (Ascii.eqb c ","); simpl; [discriminate|].
  intros H. rewrite IH by exact H. reflexivity.
Qed.

Lemma split_comma_1_none s : Flow.no_comma s = true -> split_comma_1 s = None.
Proof.
  induction s as [|c s IH]; simpl; [reflexivity|].
  destruct (Ascii.eqb c ","); simpl; [discriminate | exact IH].
Qed.

Lemma split_comma_1_after head tail :
  Flow.no_comma head = true ->
  split_comma_1 (head ++ "," ++ tail) = Some (upto_comma tail).
Proof.
  induction head as [|c head IH]; simpl; [reflexivity|].
  destruct (Ascii.eqb c ","); simpl; [discriminate | exact IH].
Qed.

(** X3.  [blobToBase64] gives what stands between the first and the second
    comma of the data URL: the whole payload when neither the part before
    the first comma (the [data:] header with the MIME type) nor the payload
    holds a comma, and [undefined] when the URL has no comma. *)
Theorem blobToBase64_takes_what_follows_the_first_comma ext blob url :
  readAsDataURL ext blob = Returned url ->
  (Flow.no_comma url = true -> blobToBase64 ext blob = Returned None) /\
  (forall head payload,
      url = head ++ "," ++ payload ->
      Flow.no_comma head = true ->
      blobToBase64 ext blob = Returned (Some (upto_comma payload)) /\
      (Flow.no_comma payload = true -> blobToBase64 ext blob = Returned (Some payload))).
Proof.
  intros Hread. unfold blobToBase64. rewrite Hread. unfold bind. split.
  - intros H. rewrite split_comma_1_none by exact H. reflexivity.
  - intros head payload -> Hhead.
    rewrite split_comma_1_after by exact Hhead. split; [reflexivity|].
    intros Hp. rewrite upto_comma_all by exact Hp. reflexivity.
Qed.

Lemma blobToBase64_takes_what_follows_the_first_comma_witness :
  blobToBase64 (Sample.mock None [] (Returned None)) Sample.recording
  = Returned (Some "UklGRg==").
Proof.
  destruct (blobToBase64_takes_what_follows_the_first_comma
              (Sample.mock None [] (Returned None)) Sample.recording
              "data:audio/webm;base64,UklGRg==" eq_refl) as [_ H].
  destruct (H "data:audio/webm;base64" "UklGRg==" eq_refl eq_refl) as [_ Hpayload].
  exact (Hpayload eq_refl).
Defined.

Lemma first_image_reference ps url :
  first_image ps = Returned url ->
  exists payload, url = "data:image/png;base64," ++ payload.
Proof.
  induction ps as [|p ps IH]; simpl; [discriminate|].
  destruct (Sdk.inlineData p) as [d|]; [|exact IH].
  intros [= <-]. eexists. reflexivity.
Qed.

(** X14.  Whatever [generateDreamImage] returns is a non-empty reference:
    the stock picture in the revision that makes no call, and in the other
    one a URL that begins with [data:image/png;base64,] whatever MIME type
    the inline data declares. *)
Theorem generateDreamImage_reference_is_never_empty rev ext prompt size url :
  generateDreamImage rev ext prompt size = Returned url ->
  url <> EmptyString /\
  match rev with
  | Safe => url = stock_picture
  | Live => exists payload, url = "data:image/png;base64," ++ payload
  end.
Proof.
  destruct rev; simpl.
  - intros [= <-]. split; [discriminate | reflexivity].
  - destruct (generateImage ext (image_request prompt size)) as [response|e]; simpl;
      [|discriminate].
    intros H. destruct (first_image_reference _ _ H) as [payload ->].
    split; [discriminate | eexists; reflexivity].
Qed.

Lemma generateDreamImage_reference_is_never_empty_witness :
  "data:image/png;base64,iVBORw0KGgo=" <> EmptyString.
Proof.
  apply (generateDreamImage_reference_is_never_empty Live
           (Sample.mock None [Sample.caption; Sample.png] (Returned None))
           None Size1K "data:image/png;base64,iVBORw0KGgo=").
  reflexivity.
Defined.

(* ================================================================== *)
(** ** More properties of the recorder *)
(* ================================================================== *)

Lemma append_empty (s : string) : s ++ "" = s.
Proof. induction s as [|c s IH]; simpl; [reflexivity | rewrite IH; reflexivity]. Qed.

Lemma length_zero_empty (s : string) : String.length s = 0 -> s = EmptyString.
Proof. destruct s; [reflexivity | discriminate]. Qed.

Lemma new_Blob_snoc chunks data type :
  blob_bytes (new_Blob (chunks ++ [data]) type)
  = blob_bytes (new_Blob chunks type) ++ blob_bytes data.
Proof.
  unfold new_Blob. simpl. induction chunks as [|c chunks IH]; simpl.
  - apply append_empty.
  - rewrite IH, append_assoc. reflexivity.
Qed.

(** What the activities of a recording keep and what they add. *)
Lemma during_keeps (W : Type) acts : forall l : R.Local W,
  R.isRecording (Lifecycle.during acts l) = R.isRecording l /\
  R.mediaRecorderRef (Lifecycle.during acts l) = R.mediaRecorderRef l /\
  forall type,
    blob_bytes (new_Blob (R.chunksRef (Lifecycle.during acts l)) type)
    = blob_bytes (new_Blob (R.chunksRef l) type) ++ Lifecycle.audio acts.
Proof.
  induction acts as [|a acts IH]; intros l.
  - repeat split. intros type. simpl. symmetry. apply append_empty.
  - destruct a as [id|data].
    + change (Lifecycle.during (Lifecycle.Frame id :: acts) l)
        with (Lifecycle.during acts (R.frame id l)).
      destruct (IH (R.frame id l)) as (Hrec & Href & Hbytes).
      assert (Hframe : R.isRecording (R.frame id l) = R.isRecording l /\
                       R.mediaRecorderRef (R.frame id l) = R.mediaRecorderRef l /\
                       R.chunksRef (R.frame id l) = R.chunksRef l).
      { unfold R.frame. destruct (existsb (Nat.eqb id) (R.scheduled l)); repeat split. }
      destruct Hframe as (H1 & H2 & H3).
      rewrite Hrec, Href, H1, H2. repeat split.
      intros type. rewrite Hbytes, H3. reflexivity.
    + change (Lifecycle.during (Lifecycle.Data data :: acts) l)
        with (Lifecycle.during acts (R.ondataavailable data l)).
      destruct (IH (R.ondataavailable data l)) as (Hrec & Href & Hbytes).
      destruct (ondataavailable_keeps W data l) as (H1 & H2 & _).
      rewrite Hrec, Href, H1, H2. repeat split.
      intros type. rewrite Hbytes. unfold R.ondataavailable.
      change (Lifecycle.audio (Lifecycle.Data data :: acts))
        with (blob_bytes data ++ Lifecycle.audio acts).
      destruct (Nat.ltb 0 (size data)) eqn:Hsize.
      * cbn [R.chunksRef R.set_chunksRef].
        rewrite new_Blob_snoc, append_assoc. reflexivity.
      * apply Nat.ltb_ge in Hsize.
        rewrite (length_zero_empty (blob_bytes data)) by (unfold size in Hsize; lia).
        reflexivity.
Qed.

(** What the click on stop keeps. *)
Lemma stopRecording_keeps (W : Type) (l : R.Local W) :
  R.chunksRef (R.stopRecording l) = R.chunksRef l /\
  (Lifecycle.one_frame_ahead l -> Lifecycle.one_frame_ahead (R.stopRecording l)).
Proof.
  unfold R.stopRecording.
  destruct (R.mediaRecorderRef l) as [mr|]; [destruct (R.isRecording l)|];
    split; try reflexivity; intros H; exact H.
Qed.

(** A recording from the microphone granted to the stop event: the
    recorder the component refers to is the one that was started and has
    been told to stop, and the chunks hold what was there plus the audio
    delivered before and after the click on stop. *)
Lemma recorded_keeps (W : Type) (props : R.Props W) stream before after (l : R.Local W) :
  let l' := Lifecycle.recorded props stream before after l in
  R.mediaRecorderRef l' = Some (R.mkRecorder R.stopping stream props) /\
  R.isRecording l' = false /\
  new_Blob (R.chunksRef l') "audio/webm"
  = mkBlob "audio/webm" (Lifecycle.audio before ++ Lifecycle.audio after).
Proof.
  unfold Lifecycle.recorded.
  set (l1 := R.startRecording_resume props (Returned stream) l).
  destruct (during_keeps W before l1) as (Hrec & Href & Hbytes).
  set (l2 := Lifecycle.during before l1) in *.
  assert (Hstop : R.stopRecording l2
                  = R.set_isRecording false
                      (R.set_mediaRecorderRef
                         (Some (R.mkRecorder R.stopping stream props)) l2)).
  { unfold R.stopRecording. rewrite Href, Hrec. reflexivity. }
  destruct (during_keeps W after (R.stopRecording l2)) as (Hrec' & Href' & Hbytes').
  cbv zeta. split; [rewrite Href', Hstop; reflexivity|].
  split; [rewrite Hrec', Hstop; reflexivity|].
  specialize (Hbytes' "audio/webm"). specialize (Hbytes "audio/webm").
  rewrite (proj1 (stopRecording_keeps W l2)) in Hbytes'.
  rewrite Hbytes in Hbytes'.
  unfold new_Blob in *. cbn [blob_bytes] in Hbytes'. rewrite Hbytes'. reflexivity.
Qed.

(** X4.  The blob that [onstop] hands to [onRecordingComplete] is of type
    audio/webm and holds, in order, exactly the audio of the data events
    received since the microphone was granted, those before and those
    after the click on stop (where the browser delivers the audio of a
    recorder started without a timeslice); chunks left from an earlier
    recording are not in it, and empty chunks add nothing. *)
Theorem recording_hands_over_the_audio_received (W : Type)
    (props : R.Props W) stream before after (l : R.Local W) (w : W) :
  exists mr,
    R.mediaRecorderRef (Lifecycle.recorded props stream before after l) = Some mr /\
    R.state mr = R.stopping /\
    R.closure mr = props /\
    snd (fst (R.onstop mr (Lifecycle.recorded props stream before after l) w))
    = fst (R.onRecordingComplete
             props
             (mkBlob "audio/webm" (Lifecycle.audio before ++ Lifecycle.audio after)) w).
Proof.
  destruct (recorded_keeps W props stream before after l) as (Href & _ & Hblob).
  exists (R.mkRecorder R.stopping stream props).
  split; [exact Href|]. split; [reflexivity|]. split; [reflexivity|].
  unfold R.onstop. cbn [R.closure]. rewrite Hblob.
  destruct (R.onRecordingComplete
              props (mkBlob "audio/webm" (Lifecycle.audio before ++ Lifecycle.audio after)) w)
    as [w' [e|]]; reflexivity.
Qed.

Lemma frame_keeps_one_frame_ahead (W : Type) id (l : R.Local W) :
  Lifecycle.one_frame_ahead l -> Lifecycle.one_frame_ahead (R.frame id l).
Proof.
  intros (cur & Hs & Href & Hcur & Hnext & Hctx).
  unfold R.frame. rewrite Hs. simpl.
  destruct (Nat.eqb id cur) eqn:E; simpl.
  - exists (R.next_frame l). unfold R.draw, R.requestAnimationFrame, R.cancelAnimationFrame.
    simpl. rewrite Hs. simpl. rewrite E. simpl.
    repeat split; [exact Hnext | discriminate | exact Hctx].
  - exists cur. repeat split; assumption.
Qed.

Lemma during_keeps_one_frame_ahead (W : Type) acts : forall l : R.Local W,
  Lifecycle.one_frame_ahead l -> Lifecycle.one_frame_ahead (Lifecycle.during acts l).
Proof.
  induction acts as [|a acts IH]; intros l Hl; [exact Hl|].
  apply IH. destruct a as [id|data]; simpl.
  - apply frame_keeps_one_frame_ahead. exact Hl.
  - unfold R.ondataavailable. destruct (Nat.ltb 0 (size data)); [|exact Hl].
    destruct Hl as (cur & H). exists cur. exact H.
Qed.

(** X5.  A recording whose completion callback does not throw always ends
    clean: started on a component with no frame scheduled, and whatever
    frames were drawn and data delivered, before the click on stop and
    between the click and the stop event, after the stop event every track
    of the stream has ended, no frame is scheduled, the audio context is
    closed and [isRecording] is false. *)
Theorem recording_ends_clean (W : Type)
    (props : R.Props W) stream before after (l : R.Local W) (w : W) :
  R.scheduled l = [] ->
  R.next_frame l <> 0 ->
  (forall blob w0, snd (R.onRecordingComplete props blob w0) = None) ->
  exists mr l' w',
    R.mediaRecorderRef (Lifecycle.recorded props stream before after l) = Some mr /\
    R.state mr = R.stopping /\
    R.onstop mr (Lifecycle.recorded props stream before after l) w = (l', w', None) /\
    R.released l' /\ R.halted l' /\
    R.audioContextRef l' = Some R.closed /\
    R.isRecording l' = false.
Proof.
  intros Hsched Hnext Hquiet.
  destruct (recorded_keeps W props stream before after l) as (Href & Hrec & _).
  assert (Hahead : Lifecycle.one_frame_ahead (Lifecycle.recorded props stream before after l)).
  { unfold Lifecycle.recorded.
    apply during_keeps_one_frame_ahead, stopRecording_keeps, during_keeps_one_frame_ahead.
    exists (R.next_frame l). simpl. rewrite Hsched.
    repeat split; try assumption. discriminate. }
  set (l3 := Lifecycle.recorded props stream before after l) in *.
  destruct Hahead as (cur & Hs & Hframe & Hcur & _ & Hctx).
  set (mr := R.mkRecorder R.stopping stream props) in *.
  pose proof (Hquiet (new_Blob (R.chunksRef l3) "audio/webm") w) as Hcb.
  destruct (R.onRecordingComplete props (new_Blob (R.chunksRef l3) "audio/webm") w)
    as [w' thrown] eqn:Hcall.
  simpl in Hcb. subst thrown.
  destruct (onstop_releases_when_the_callback_returns W mr l3 w w' cur Hcall Hframe Hcur Hs)
    as (l' & Hstop & Hreleased & Hhalted).
  exists mr, l', w'. split; [exact Href|]. split; [reflexivity|].
  split; [exact Hstop|]. split; [exact Hreleased|]. split; [exact Hhalted|].
  unfold R.onstop in Hstop. change (R.closure mr) with props in Hstop.
  rewrite Hcall in Hstop. injection Hstop as <-.
  unfold R.stopVisualizer. rewrite Hframe.
  destruct (Nat.eqb cur 0) eqn:E; [apply Nat.eqb_eq in E; contradiction|].
  cbn. rewrite Hctx. split; [reflexivity | exact Hrec].
Qed.

Lemma recording_ends_clean_witness :
  exists mr l' w',
    R.onstop mr
      (Lifecycle.recorded Sample.quiet [R.live]
         [Lifecycle.Frame 1; Lifecycle.Frame 2]
         [Lifecycle.Frame 3; Lifecycle.Data Sample.recording; Lifecycle.Frame 4]
         (R.mounted unit)) tt = (l', w', None) /\
    R.released l' /\ R.halted l'.
Proof.
  destruct (recording_ends_clean unit Sample.quiet [R.live]
              [Lifecycle.Frame 1; Lifecycle.Frame 2]
              [Lifecycle.Frame 3; Lifecycle.Data Sample.recording; Lifecycle.Frame 4]
              (R.mounted unit) tt eq_refl)
    as (mr & l' & w' & _ & _ & Hstop & Hreleased & Hhalted & _).
  - discriminate.
  - reflexivity.
  - exists mr, l', w'. repeat split; assumption.
Defined.

(* ================================================================== *)
(** ** More properties of the application state machine *)
(* ================================================================== *)

Lemma reachable_never_recording w :
  App.reachable w ->
  step (App.current w) <> recording /\ isRecording (App.current w) = false.
Proof.
  induction 1 as [|e w w' _ [IHs IHr] Hfire].
  - split; [discriminate | reflexivity].
  - destruct e as [state blob|n outcome|n outcome| |size]; simpl in Hfire.
    + injection Hfire as <-. split; [discriminate | exact IHr].
    + destruct (nth_error (App.suspended w) n) as [[state blob|state a]|];
        try discriminate.
      injection Hfire as <-. unfold App.after_analysis.
      destruct outcome as [a|e]; [|split; [discriminate | exact IHr]].
      destruct (Json.get a "visualPrompt"); split;
        first [discriminate | exact IHr].
    + destruct (nth_error (App.suspended w) n) as [[state blob|state a]|];
        try discriminate.
      injection Hfire as <-.
      destruct outcome; split; first [discriminate | exact IHr].
    + injection Hfire as <-. split; [discriminate | reflexivity].
    + injection Hfire as <-. split; [exact IHs | exact IHr].
Qed.

(** X6.  Two parts of [DreamState] are never used: in every reachable
    state, whatever the interleaving, the step is not ['recording'] and
    the [isRecording] field is false (the recorder keeps its own flag). *)
Theorem app_never_marks_a_recording w :
  App.reachable w ->
  step (App.current w) <> recording /\ isRecording (App.current w) = false.
Proof.
  exact (reachable_never_recording w).
Qed.

Lemma app_never_marks_a_recording_witness :
  step (App.current Sample.pictured) <> recording /\
  isRecording (App.current Sample.pictured) = false.
Proof.
  apply (app_never_marks_a_recording Sample.pictured).
  apply reachable_in_turn_reachable. exact pictured_reachable.
Defined.

Lemma books_idle s :
  step s = idle -> isProcessing s = false ->
  (forall msg, error s = Some msg -> msg <> EmptyString) ->
  Flow.books s.
Proof.
  intros Hs Hp Hm. unfold Flow.books. rewrite Hs.
  split; [intros [H|H]; discriminate|].
  split; [intros _; exact Hp|].
  split; [intros _; reflexivity|].
  split; [intros H; contradiction | exact Hm].
Qed.

Lemma books_busy s :
  step s = analyzing \/ step s = generating_image ->
  isProcessing s = true -> error s = None -> audioBlob s <> None ->
  Flow.books s.
Proof.
  intros Hs Hp He Hb. unfold Flow.books.
  split; [intros _; split; assumption|].
  split; [intros [H|H]; destruct Hs as [Hs|Hs]; congruence|].
  split; [intros H; contradiction|].
  split; [intros _; exact Hb|].
  intros msg H. congruence.
Qed.

Lemma books_complete s :
  step s = complete ->
  isProcessing s = false -> error s = None -> audioBlob s <> None ->
  Flow.books s.
Proof.
  intros Hs Hp He Hb. unfold Flow.books. rewrite Hs.
  split; [intros [H|H]; discriminate|].
  split; [intros _; exact Hp|].
  split; [intros H; contradiction|].
  split; [intros _; exact Hb|].
  intros msg H. congruence.
Qed.

Lemma books_after_failure e s : Flow.books (App.to_idle_with_error e s).
Proof.
  apply books_idle; [reflexivity | reflexivity|].
  intros msg [= <-].
  apply (or_else_nonempty (Some (message e)) App.failure_text). discriminate.
Qed.

(** The bookkeeping of a state, when dreams are processed one at a time. *)
Lemma reachable_in_turn_books w : App.reachable_in_turn w -> Flow.books (App.current w).
Proof.
  induction 1 as [|e w w' Hreach IH Hturn Hfire].
  - apply books_idle; [reflexivity | reflexivity | discriminate].
  - pose proof (reachable_in_turn_in_step w Hreach) as Hstep.
    destruct w as [s susp cs]. unfold in_step in Hstep. simpl in Hstep, IH.
    destruct IH as (Hbusy & Hquiet & Herr & Hblob & Hmsg).
    destruct e as [state blob|n outcome|n outcome| |size]; simpl in Hfire, Hturn.
    + injection Hfire as <-.
      apply books_busy; [left; reflexivity | reflexivity | reflexivity | discriminate].
    + destruct susp as [|[state blob|state a] [|? ?]]; try contradiction;
        destruct n as [|[|n]]; simpl in Hfire; try discriminate.
      injection Hfire as <-. destruct Hstep as [Hs _].
      destruct (Hbusy (or_introl Hs)) as [Hp He].
      unfold App.after_analysis.
      destruct outcome as [a|e]; [|apply books_after_failure].
      destruct (Json.get a "visualPrompt"); [|apply books_after_failure].
      apply books_busy; [right; reflexivity | exact Hp | exact He|].
      apply Hblob. rewrite Hs. discriminate.
    + destruct susp as [|[state blob|state a] [|? ?]]; try contradiction;
        destruct n as [|[|n]]; simpl in Hfire; try discriminate.
      injection Hfire as <-. destruct Hstep as (Hs & _).
      destruct (Hbusy (or_intror Hs)) as [Hp He].
      destruct outcome as [url|e]; [|apply books_after_failure].
      apply books_complete; [reflexivity | reflexivity | exact He|].
      apply Hblob. rewrite Hs. discriminate.
    + injection Hfire as <-.
      apply books_idle; [reflexivity | reflexivity | discriminate].
    + injection Hfire as <-.
      exact (conj Hbusy (conj Hquiet (conj Herr (conj Hblob Hmsg)))).
Qed.

(** X7.  When dreams are processed one at a time, the bookkeeping follows
    the step: [isProcessing] is true exactly in [analyzing] and
    [generating_image]; an error is held in [idle] only, and is never the
    empty string; outside [idle] the recorded blob is kept. *)
Theorem bookkeeping_follows_the_step w :
  App.reachable_in_turn w ->
  let s := App.current w in
  (isProcessing s = true <-> step s = analyzing \/ step s = generating_image) /\
  (error s <> None -> step s = idle) /\
  (forall msg, error s = Some msg -> msg <> EmptyString) /\
  (step s <> idle -> audioBlob s <> None).
Proof.
  intros Hreach s.
  pose proof (reachable_in_turn_books w Hreach) as (Hbusy & Hquiet & Herr & Hblob & Hmsg).
  pose proof (reachable_in_turn_reachable w Hreach) as Hany.
  destruct (reachable_never_recording w Hany) as [Hnot _].
  fold s in Hbusy, Hquiet, Herr, Hblob, Hmsg, Hnot.
  split; [|split; [|split]].
  - split.
    + intros Hp. destruct (step s) eqn:Hs; try (right; reflexivity);
        try (left; reflexivity).
      * rewrite (Hquiet (or_introl eq_refl)) in Hp. discriminate.
      * contradiction.
      * rewrite (Hquiet (or_intror eq_refl)) in Hp. discriminate.
    + intros H. apply Hbusy. exact H.
  - exact Herr.
  - exact Hmsg.
  - exact Hblob.
Qed.

Lemma bookkeeping_follows_the_step_witness :
  step (App.current Sample.image_failed) = idle /\
  isProcessing (App.current Sample.image_failed) = false /\
  error (App.current Sample.image_failed) = Some "No image generated".
Proof.
  assert (Hreach : App.reachable_in_turn Sample.image_failed).
  { apply (App.turn_fire (App.ImageSettled 0 Sample.no_image)
                         Sample.analysed Sample.image_failed);
      [|exact I|reflexivity].
    apply (App.turn_fire (App.AnalysisSettled 0 (Returned (to_json Sample.dream)))
                         Sample.handed_over Sample.analysed);
      [|exact I|reflexivity].
    apply (App.turn_fire (App.RecordingComplete App.initial Sample.recording)
                         App.init Sample.handed_over);
      [|split; reflexivity|reflexivity].
    constructor. }
  destruct (bookkeeping_follows_the_step Sample.image_failed Hreach) as (_ & Herr & _).
  split; [apply Herr; discriminate|]. split; reflexivity.
Defined.

Lemma count_drop {A} (p : A -> bool) l : forall n x,
  nth_error l n = Some x ->
  length (filter p l)
  = length (filter p (firstn n l ++ skipn (S n) l)) + (if p x then 1 else 0).
Proof.
  induction l as [|y l IH]; intros [|n] x Hn; simpl in Hn; try discriminate.
  - injection Hn as ->. simpl. destruct (p x); simpl; lia.
  - specialize (IH n x Hn). simpl. simpl in IH.
    destruct (p y); simpl; rewrite IH; reflexivity.
Qed.

Lemma count_snoc {A} (p : A -> bool) l x :
  length (filter p (l ++ [x])) = length (filter p l) + (if p x then 1 else 0).
Proof.
  rewrite filter_app, length_app. simpl. destruct (p x); reflexivity.
Qed.

Ltac held Han Hurl :=
  split; intros H;
  first [ contradiction
        | specialize (Han H); lia
        | specialize (Hurl H); lia
        | lia ].

Lemma reachable_ledger w : App.reachable w -> Flow.ledger w.
Proof.
  induction 1 as [|e w w' _ IH Hfire].
  - unfold Flow.ledger. simpl.
    split; [apply le_n|]. split; [apply le_n|]. split; intros H; contradiction.
  - destruct IH as (Ha & Hi & Han & Hurl).
    destruct w as [s susp cs]. simpl in Ha, Hi, Han, Hurl.
    unfold Flow.awaiting_analysis, Flow.awaiting_image, Flow.analyses, Flow.images in *.
    destruct e as [state blob|n outcome|n outcome| |size]; simpl in Hfire.
    + injection Hfire as <-. unfold Flow.ledger, App.handleRecordingComplete.
      unfold Flow.awaiting_analysis, Flow.awaiting_image, Flow.analyses, Flow.images.
      simpl. rewrite !count_snoc. simpl.
      split; [lia|]. split; [lia|]. held Han Hurl.
    + destruct (nth_error susp n) as [[state blob|state a]|] eqn:Hn; try discriminate.
      injection Hfire as <-.
      pose proof (count_drop
                    (fun s => match s with App.AwaitAnalysis _ _ => true | _ => false end)
                    susp n _ Hn) as Hda.
      pose proof (count_drop
                    (fun s => match s with App.AwaitImage _ _ => true | _ => false end)
                    susp n _ Hn) as Hdi.
      simpl in Hda, Hdi.
      unfold Flow.ledger, App.after_analysis, App.drop.
      unfold Flow.awaiting_analysis, Flow.awaiting_image, Flow.analyses, Flow.images.
      destruct outcome as [a|e]; simpl.
      * destruct (Json.get a "visualPrompt") as [p|e] eqn:Hget; simpl.
        -- rewrite !count_snoc. simpl.
           split; [lia|]. split; [lia|]. held Han Hurl.
        -- split; [lia|]. split; [lia|].
           destruct a; simpl in Hget; try discriminate. simpl. held Han Hurl.
      * split; [lia|]. split; [lia|]. held Han Hurl.
    + destruct (nth_error susp n) as [[state blob|state a]|] eqn:Hn; try discriminate.
      injection Hfire as <-.
      pose proof (count_drop
                    (fun s => match s with App.AwaitAnalysis _ _ => true | _ => false end)
                    susp n _ Hn) as Hda.
      pose proof (count_drop
                    (fun s => match s with App.AwaitImage _ _ => true | _ => false end)
                    susp n _ Hn) as Hdi.
      simpl in Hda, Hdi.
      unfold Flow.ledger, App.after_image, App.drop.
      unfold Flow.awaiting_analysis, Flow.awaiting_image, Flow.analyses, Flow.images.
      destruct outcome as [url|e]; simpl.
      * split; [lia|]. split; [lia|]. held Han Hurl.
      * split; [lia|]. split; [lia|]. held Han Hurl.
    + injection Hfire as <-. unfold Flow.ledger.
      unfold Flow.awaiting_analysis, Flow.awaiting_image, Flow.analyses, Flow.images.
      simpl. split; [lia|]. split; [lia|]. held Han Hurl.
    + injection Hfire as <-. unfold Flow.ledger.
      unfold Flow.awaiting_analysis, Flow.awaiting_image, Flow.analyses, Flow.images.
      simpl. split; [lia|]. split; [lia|]. held Han Hurl.
Qed.

(** X8.  In every reachable state, whatever the interleaving: the
    application has made no more image calls than analysis calls; it holds
    an analysis only if an analysis call was made, and an image reference
    only if an image call (hence an analysis call before it) was made. *)
Theorem nothing_is_held_without_its_call w :
  App.reachable w ->
  Flow.images (App.calls w) <= Flow.analyses (App.calls w) /\
  (analysis (App.current w) <> None -> 1 <= Flow.analyses (App.calls w)) /\
  (imageUrl (App.current w) <> None ->
     1 <= Flow.images (App.calls w) /\ 1 <= Flow.analyses (App.calls w)).
Proof.
  intros Hreach. destruct (reachable_ledger w Hreach) as (Ha & _ & Han & Hurl).
  split; [lia|]. split.
  - intros H. specialize (Han H). lia.
  - intros H. specialize (Hurl H). lia.
Qed.

Lemma nothing_is_held_without_its_call_witness :
  imageUrl (App.current Sample.pictured) <> None /\
  1 <= Flow.images (App.calls Sample.pictured).
Proof.
  destruct (nothing_is_held_without_its_call Sample.pictured
              (reachable_in_turn_reachable _ pictured_reachable)) as (_ & _ & Hurl).
  split; [discriminate|]. apply Hurl. discriminate.
Defined.

(* ================================================================== *)
(** ** Properties of a dream processed against the service *)
(* ================================================================== *)

(** Where [handleRecordingComplete] ends, by the outcome of its calls. *)
Lemma dream_ends rev ext state blob w :
  let started :=
    App.mkWorld (App.to_analyzing blob (App.current w)) (App.suspended w)
                (App.calls w ++ [App.CallAnalyze blob]) in
  Flow.dream rev ext state blob w =
  Some
    match analyzeDreamAudio rev ext blob with
    | Threw e => App.update (App.to_idle_with_error e) started
    | Returned a =>
        match Json.get a "visualPrompt" with
        | Threw e =>
            App.update (App.to_idle_with_error e)
                       (App.update (App.to_generating_image a) started)
        | Returned p =>
            App.after_image
              (generateDreamImage rev ext p (imageSize state))
              (App.mkWorld
                 (App.to_generating_image a (App.to_analyzing blob (App.current w)))
                 (App.suspended w)
                 (App.calls w ++ [App.CallAnalyze blob; App.CallImage p (imageSize state)]))
        end
    end.
Proof.
  intros started. unfold Flow.dream.
  assert (Hnone : nth_error (App.suspended w) (length (App.suspended w)) = None)
    by (apply nth_error_None; apply le_n).
  unfold App.fire at 1. unfold App.handleRecordingComplete at 1.
  cbn [App.suspended]. rewrite nth_error_snoc.
  unfold App.drop, App.handleRecordingComplete. cbn [App.suspended App.current App.calls].
  rewrite drop_snoc. fold started.
  unfold App.after_analysis.
  destruct (analyzeDreamAudio rev ext blob) as [a|e].
  - destruct (Json.get a "visualPrompt") as [p|e] eqn:Hget.
    + cbn [App.suspended App.update App.current App.calls started].
      rewrite nth_error_snoc, Hget.
      unfold App.fire. cbn [App.suspended]. rewrite nth_error_snoc.
      unfold App.drop. cbn [App.suspended App.current App.calls].
      rewrite drop_snoc, <- app_assoc. reflexivity.
    + cbn [App.suspended App.update started]. rewrite Hnone. reflexivity.
  - cbn [App.suspended App.update started]. rewrite Hnone. reflexivity.
Qed.

(** X15.  Once its calls have settled, [handleRecordingComplete] has left
    the application either in [complete], with an analysis, an image and no
    error, or in [idle] with a non-empty error message; in both cases it
    is no longer processing, holds the recorded blob, and no handler of
    that dream is left waiting. *)
Theorem a_dream_ends_complete_or_idle_with_an_error rev ext state blob w :
  exists w',
    Flow.dream rev ext state blob w = Some w' /\
    App.suspended w' = App.suspended w /\
    audioBlob (App.current w') = Some blob /\
    isProcessing (App.current w') = false /\
    ((step (App.current w') = complete /\
      analysis (App.current w') <> None /\ imageUrl (App.current w') <> None /\
      error (App.current w') = None)
     \/
     (step (App.current w') = idle /\
      exists msg, error (App.current w') = Some msg /\ msg <> EmptyString)).
Proof.
  rewrite dream_ends. eexists. split; [reflexivity|].
  assert (Hmsg : forall e, or_else (Some (message e)) App.failure_text <> EmptyString)
    by (intros e; apply or_else_nonempty; discriminate).
  destruct (analyzeDreamAudio rev ext blob) as [a|e].
  - destruct (Json.get a "visualPrompt") as [p|e] eqn:Hget.
    + destruct (generateDreamImage rev ext p (imageSize state)) as [url|e]; simpl.
      * repeat split. left. repeat split.
        -- exact (get_returns_not_null a _ p Hget).
        -- discriminate.
      * repeat split. right. split; [reflexivity|]. eexists. split; [reflexivity | apply Hmsg].
    + simpl. repeat split. right. split; [reflexivity|].
      eexists. split; [reflexivity | apply Hmsg].
  - simpl. repeat split. right. split; [reflexivity|].
    eexists. split; [reflexivity | apply Hmsg].
Qed.

(** X16.  When the model answers the analysis call with the JSON text of
    [a] and the image call returns [url], the dream ends in [complete] with
    that blob, that analysis and that image, no error, and the resolution
    untouched; the calls made are the analysis call for the blob and one
    image call, whose prompt is the [visualPrompt] of [a] and whose size is
    that of the state the handler closed over. *)
Theorem a_successful_dream rev ext state blob w base64 response a url :
  readAsDataURL ext blob = Returned base64 ->
  generateContent ext (analysis_request rev blob (split_comma_1 base64)) = Returned response ->
  Sdk.text response = Some (stringify a) ->
  generateDreamImage rev ext (Some (JString (visualPrompt a))) (imageSize state)
  = Returned url ->
  Flow.dream rev ext state blob w =
  Some (App.mkWorld
          {| audioBlob := Some blob;
             analysis := Some (to_json a);
             imageUrl := Some url;
             imageSize := imageSize (App.current w);
             isProcessing := false;
             isRecording := isRecording (App.current w);
             step := complete;
             error := None |}
          (App.suspended w)
          (App.calls w ++
             [App.CallAnalyze blob;
              App.CallImage (Some (JString (visualPrompt a))) (imageSize state)])).
Proof.
  intros Hread Hcall Htext Himage.
  rewrite dream_ends.
  rewrite (analyzeDreamAudio_text rev ext blob base64 response Hread Hcall), Htext.
  destruct (stringify a =? "") eqn:E;
    [apply String.eqb_eq in E; destruct (stringify_not_empty a E)|].
  unfold JSON_parse. rewrite parse_stringify.
  change (Json.get (to_json a) "visualPrompt")
    with (@Returned (option json) (Some (JString (visualPrompt a)))).
  cbv iota. rewrite Himage. reflexivity.
Qed.

Lemma a_successful_dream_witness :
  option_map (fun w => (step (App.current w), imageUrl (App.current w), App.calls w))
    (Flow.dream Safe (Sample.mock (Some (stringify Sample.dream)) [] (Returned None))
                (App.setImageSize Size2K App.initial) Sample.recording App.init)
  = Some (complete, Some stock_picture,
          [ App.CallAnalyze Sample.recording;
            App.CallImage (Some (JString "A figure soaring above a silver sea")) Size2K ]).
Proof.
  rewrite (a_successful_dream Safe
             (Sample.mock (Some (stringify Sample.dream)) [] (Returned None))
             (App.setImageSize Size2K App.initial) Sample.recording App.init
             "data:audio/webm;base64,UklGRg=="
             (Sample.response_of [] (Some (stringify Sample.dream)))
             Sample.dream stock_picture eq_refl eq_refl eq_refl eq_refl).
  reflexivity.
Defined.

(** X17.  A failure of the transport is not retried and not rewritten: when
    the model call of [analyzeDreamAudio] throws [e], or the one of the
    live [generateDreamImage] does after a good analysis, the dream ends in
    [idle] and the error shown is the message of [e] itself (the fixed
    text "Failed to process dream. Please try again." only when that message
    is empty). *)
Theorem a_transport_failure_is_shown_as_it_is rev ext state blob w base64 e :
  readAsDataURL ext blob = Returned base64 ->
  (generateContent ext (analysis_request rev blob (split_comma_1 base64)) = Threw e ->
   analyzeDreamAudio rev ext blob = Threw e /\
   exists w',
     Flow.dream rev ext state blob w = Some w' /\
     step (App.current w') = idle /\
     error (App.current w')
     = Some (if message e =? "" then "Failed to process dream. Please try again."
             else message e) /\
     App.calls w' = (App.calls w ++ [App.CallAnalyze blob])%list) /\
  (forall response a,
     rev = Live ->
     generateContent ext (analysis_request rev blob (split_comma_1 base64)) = Returned response ->
     Sdk.text response = Some (stringify a) ->
     generateImage ext (image_request (Some (JString (visualPrompt a))) (imageSize state))
     = Threw e ->
     exists w',
       Flow.dream rev ext state blob w = Some w' /\
       step (App.current w') = idle /\
       analysis (App.current w') = Some (to_json a) /\
       error (App.current w')
       = Some (if message e =? "" then "Failed to process dream. Please try again."
               else message e)).
Proof.
  intros Hread. split.
  - intros Hcall.
    assert (Hthrow : analyzeDreamAudio rev ext blob = Threw e).
    { unfold analyzeDreamAudio, blobToBase64. rewrite Hread. simpl.
      rewrite Hcall. reflexivity. }
    split; [exact Hthrow|].
    rewrite dream_ends, Hthrow. eexists. split; [reflexivity|]. repeat split.
  - intros response a -> Hcall Htext Himage.
    rewrite dream_ends.
    rewrite (analyzeDreamAudio_text Live ext blob base64 response Hread Hcall), Htext.
    destruct (stringify a =? "") eqn:E;
      [apply String.eqb_eq in E; destruct (stringify_not_empty a E)|].
    unfold JSON_parse. rewrite parse_stringify.
    change (Json.get (to_json a) "visualPrompt")
      with (@Returned (option json) (Some (JString (visualPrompt a)))).
    cbv iota. unfold generateDreamImage. rewrite Himage.
    eexists. split; [reflexivity|]. repeat split.
Qed.

Lemma a_transport_failure_is_shown_as_it_is_witness :
  exists w',
    Flow.dream Live
      (mkExternal (fun _ => Returned "data:audio/webm;base64,UklGRg==")
                  (fun _ => Threw (Error "fetch failed"))
                  (fun _ => Threw (Error "fetch failed"))
                  (fun _ _ => Threw (Error "fetch failed")))
      App.initial Sample.recording App.init = Some w' /\
    error (App.current w') = Some "fetch failed".
Proof.
  destruct (a_transport_failure_is_shown_as_it_is Live
              (mkExternal (fun _ => Returned "data:audio/webm;base64,UklGRg==")
                          (fun _ => Threw (Error "fetch failed"))
                          (fun _ => Threw (Error "fetch failed"))
                          (fun _ _ => Threw (Error "fetch failed")))
              App.initial Sample.recording App.init
              "data:audio/webm;base64,UklGRg==" (Error "fetch failed") eq_refl)
    as [Hfail _].
  destruct (Hfail eq_refl) as (_ & w' & Hrun & _ & Herror & _).
  exists w'. split; [exact Hrun | exact Herror].
Defined.

(* ================================================================== *)
(** ** More properties of the page *)
(* ================================================================== *)

(** What one event of the page does to the list of calls. *)
Lemma page_fire_calls e p p' :
  Page.well_formed p -> Page.fire e p = Some p' ->
  App.calls (Page.world p') = App.calls (Page.world p) \/
  (exists chunks,
      App.calls (Page.world p')
      = (App.calls (Page.world p) ++ [App.CallAnalyze (new_Blob chunks "audio/webm")])%list /\
      (exists t r, e = Page.On t (Page.RecorderStopped r)) /\
      step (App.current (Page.world p')) = analyzing /\
      audioBlob (App.current (Page.world p')) = Some (new_Blob chunks "audio/webm") /\
      isProcessing (App.current (Page.world p')) = true) \/
  (exists prompt size,
      App.calls (Page.world p')
      = (App.calls (Page.world p) ++ [App.CallImage prompt size])%list).
Proof.
  intros [Hrec Hgone] Hfire. destruct p as [w r gone].
  cbn [Page.recorder Page.world Page.unmounted] in Hrec, Hgone.
  destruct e as [size| | |n outcome|n outcome|[|k] b];
    unfold Page.fire, Page.app_event in Hfire;
    cbn [Page.recorder Page.world Page.unmounted] in Hfire.
  - destruct r as [i|]; [|discriminate]. unfold R.click_size in Hfire.
    destruct (R.isRecording (Page.cells i)); injection Hfire as <-; rewrite world_render;
      left; reflexivity.
  - destruct r as [i|]; [|discriminate]. injection Hfire as <-.
    rewrite world_render. left. reflexivity.
  - simpl in Hfire. injection Hfire as <-. rewrite world_render. left. reflexivity.
  - simpl in Hfire.
    destruct (nth_error (App.suspended w) n) as [[state blob|state a]|]; try discriminate.
    injection Hfire as <-. rewrite world_render. unfold App.after_analysis.
    destruct outcome as [a|e]; [|left; reflexivity].
    destruct (Json.get a "visualPrompt") as [pr|e]; [|left; reflexivity].
    right. right. exists pr, (imageSize state). reflexivity.
  - simpl in Hfire.
    destruct (nth_error (App.suspended w) n) as [[state blob|state a]|]; try discriminate.
    injection Hfire as <-. rewrite world_render.
    destruct outcome; left; reflexivity.
  - destruct r as [i|]; [|discriminate].
    destruct (Page.browser true b i w) as [[i' w']|] eqn:Hb; [|discriminate].
    injection Hfire as <-. rewrite world_render.
    destruct (browser_effect _ _ _ _ _ _ (proj2 Hrec) Hb)
      as [_ [->|(src & state & -> & ->)]]; [left; reflexivity|].
    right. left. exists (R.chunksRef (Page.cells i)).
    split; [reflexivity|]. split; [exists Page.Shown, src; reflexivity|].
    repeat split.
  - destruct (nth_error gone k) as [i|] eqn:Hk; [|discriminate].
    destruct (Page.browser false b i w) as [[i' w']|] eqn:Hb; [|discriminate].
    injection Hfire as <-. rewrite world_render.
    destruct (browser_effect _ _ _ _ _ _ (Forall_nth_error_holds _ _ _ _ Hgone Hk) Hb)
      as [_ [->|(src & state & -> & ->)]]; [left; reflexivity|].
    right. left. exists (R.chunksRef (Page.cells i)).
    split; [reflexivity|]. split; [exists (Page.Unmounted k), src; reflexivity|].
    repeat split.
Qed.

Lemma snoc_not_same {A} (l : list A) x : (l ++ [x])%list <> l.
Proof.
  intros H. apply (f_equal (@length A)) in H. rewrite length_app in H. simpl in H. lia.
Qed.

(** X9.  Every analysis call the page makes carries a blob of type
    audio/webm, so the request of [analyzeDreamAudio] always declares that
    MIME type (the fallback of [audioBlob.type || 'audio/webm'] is never
    what decides it). *)
Theorem every_analysis_call_is_webm p :
  Page.reachable p ->
  Forall Flow.of_webm (App.calls (Page.world p)) /\
  (forall blob rev base64,
      In (App.CallAnalyze blob) (App.calls (Page.world p)) ->
      a_mimeType (analysis_request rev blob base64) = "audio/webm" /\
      blob_type blob <> EmptyString).
Proof.
  intros Hreach.
  assert (Hall : Forall Flow.of_webm (App.calls (Page.world p))).
  { induction Hreach as [|e p p' Hreach IH Hfire]; [constructor|].
    destruct (page_fire_calls e p p' (reachable_well_formed p Hreach) Hfire)
      as [-> | [(chunks & -> & _) | (prompt & size & ->)]].
    - exact IH.
    - apply Forall_app. split; [exact IH|]. constructor; [reflexivity | constructor].
    - apply Forall_app. split; [exact IH|]. constructor; [exact I | constructor]. }
  split; [exact Hall|].
  intros blob rev base64 Hin. rewrite Forall_forall in Hall.
  specialize (Hall _ Hin). simpl in Hall.
  unfold analysis_request. simpl. rewrite Hall. split; [reflexivity | discriminate].
Qed.

Lemma every_analysis_call_is_webm_witness :
  Forall Flow.of_webm (App.calls (Page.world Sample.settled_late)).
Proof.
  apply (every_analysis_call_is_webm Sample.settled_late).
  apply (run_reachable
           (Sample.one_recording ++
              [ Page.ClickHeader; Page.ClickResolution Size4K;
                Page.AnalysisSettled 0 (Returned (to_json Sample.dream)) ]) Page.start).
  - constructor.
  - vm_compute. reflexivity.
Defined.

(** X10.  The one event of the page that adds an analysis call is the stop
    event of a [MediaRecorder], of the recorder on the page or of one that
    React has unmounted; the blob is of type audio/webm, and right after
    the event the step is [analyzing], with that blob held and
    [isProcessing] true, whatever the step was before. *)
Theorem an_analysis_is_requested_by_a_stop_event e p p' blob :
  Page.reachable p ->
  Page.fire e p = Some p' ->
  App.calls (Page.world p') = (App.calls (Page.world p) ++ [App.CallAnalyze blob])%list ->
  (exists t r, e = Page.On t (Page.RecorderStopped r)) /\
  blob_type blob = "audio/webm" /\
  step (App.current (Page.world p')) = analyzing /\
  audioBlob (App.current (Page.world p')) = Some blob /\
  isProcessing (App.current (Page.world p')) = true.
Proof.
  intros Hreach Hfire Hcalls.
  destruct (page_fire_calls e p p' (reachable_well_formed p Hreach) Hfire)
    as [Hsame | [(chunks & Hadd & He & Hnext & Hblob & Hbusy) | (prompt & size & Himage)]].
  - rewrite Hsame in Hcalls. symmetry in Hcalls. destruct (snoc_not_same _ _ Hcalls).
  - rewrite Hadd in Hcalls. apply app_inv_head in Hcalls.
    injection Hcalls as <-. repeat split; assumption.
  - rewrite Himage in Hcalls. apply app_inv_head in Hcalls. discriminate.
Qed.

Lemma an_analysis_is_requested_by_a_stop_event_witness :
  step (App.current (Page.world Cases.first_analysed)) = generating_image /\
  Page.recorder Cases.first_analysed = None /\
  step (App.current (Page.world Cases.second_delivered)) = analyzing /\
  audioBlob (App.current (Page.world Cases.second_delivered)) = Some Sample.recording.
Proof.
  assert (Hreach : Page.reachable Cases.first_analysed).
  { apply (run_reachable
             (Sample.one_recording ++
                [ Page.ClickHeader; Page.ClickRecord;
                  Page.On Page.Shown (Page.MicrophoneSettled 0 (Returned [R.live]));
                  Page.ClickRecord;
                  Page.AnalysisSettled 0 (Returned (to_json Sample.dream));
                  Page.On (Page.Unmounted 1)
                          (Page.DataAvailable Page.Referenced Sample.recording) ])
             Page.start); [constructor | vm_compute; reflexivity]. }
  destruct (an_analysis_is_requested_by_a_stop_event
              (Page.On (Page.Unmounted 1) (Page.RecorderStopped Page.Referenced))
              Cases.first_analysed Cases.second_delivered Sample.recording Hreach)
    as (_ & _ & Hnext & Hblob & _).
  - vm_compute. reflexivity.
  - vm_compute. reflexivity.
  - split; [vm_compute; reflexivity|]. split; [vm_compute; reflexivity|].
    split; [exact Hnext | exact Hblob].
Defined.

(* ================================================================== *)
(** ** Properties of what is shown *)
(* ================================================================== *)

(** X11.  When dreams are processed one at a time the page shows one thing
    per step: in [idle] the recorder, under the error banner if an error is
    held; in [analyzing] and [generating_image] the progress text alone (no
    recorder, no banner), the second naming the current resolution; in
    [complete], where an analysis and an image are held, the result alone
    provided both are truthy (an analysis that is an object always is). *)
Theorem the_page_shows_one_thing_per_step (denotes_zero : string -> bool) w :
  App.reachable_in_turn w ->
  let s := App.current w in
  match step s with
  | idle =>
      View.view denotes_zero true s =
      View.Main (match error s with
                 | Some msg => [View.ErrorBanner msg; View.Recorder (imageSize s)]
                 | None => [View.Recorder (imageSize s)]
                 end)
  | analyzing =>
      View.view denotes_zero true s =
      View.Main [View.Progress "Interpreting Symbols..."
                               "Transcribing and consulting the archetypes."]
  | generating_image =>
      View.view denotes_zero true s =
      View.Main [View.Progress "Painting the Dreamscape..."
                               ("Generating " ++ View.size_label (imageSize s)
                                  ++ " surrealist visualization.")]
  | complete =>
      exists a url,
        analysis s = Some a /\ imageUrl s = Some url /\
        (View.truthy_json denotes_zero a = true -> url <> EmptyString ->
         View.view denotes_zero true s = View.Main [View.Result a url]) /\
        (forall members, a = JObject members -> View.truthy_json denotes_zero a = true)
  | recording => False
  end.
Proof.
  intros Hreach s.
  pose proof (reachable_in_turn_books w Hreach) as (Hbusy & Hquiet & Herr & Hblob & Hmsg).
  pose proof (reachable_in_turn_in_step w Hreach) as Hstep.
  destruct (reachable_never_recording w (reachable_in_turn_reachable w Hreach))
    as [Hnot _].
  unfold in_step in Hstep. fold s in Hbusy, Hquiet, Herr, Hblob, Hmsg, Hstep, Hnot.
  unfold View.view. cbn [negb].
  destruct (step s) eqn:Hs.
  - cbn. destruct (error s) as [msg|] eqn:He; [|reflexivity].
    specialize (Hmsg msg eq_refl). simpl.
    destruct (msg =? "") eqn:E; [apply String.eqb_eq in E; contradiction|].
    reflexivity.
  - contradiction.
  - destruct (Hbusy (or_introl eq_refl)) as [_ ->]. reflexivity.
  - destruct (Hbusy (or_intror eq_refl)) as [_ ->]. reflexivity.
  - assert (He : error s = None).
    { destruct (error s) eqn:He; [|reflexivity].
      assert (H : complete = idle) by (apply Herr; discriminate).
      discriminate. }
    assert (Hheld : analysis s <> None /\ imageUrl s <> None).
    { destruct (App.suspended w) as [|[state blob|state a] [|? ?]]; try contradiction.
      - destruct Hstep as [[H _]|(_ & Ha & Hu)]; [discriminate | split; assumption].
      - destruct Hstep as [H _]. discriminate.
      - destruct Hstep as (H & _). discriminate. }
    destruct Hheld as [Ha Hu].
    destruct (analysis s) as [a|] eqn:Han; [|contradiction].
    destruct (imageUrl s) as [url|] eqn:Hurl; [|contradiction].
    exists a, url. split; [reflexivity|]. split; [reflexivity|]. split.
    + intros Ht Hne. rewrite He. cbn. rewrite Ht. simpl.
      destruct (url =? "") eqn:E; [apply String.eqb_eq in E; contradiction|].
      reflexivity.
    + intros members ->. reflexivity.
Qed.

Lemma the_page_shows_one_thing_per_step_witness :
  View.view (fun _ => false) true (App.current Sample.pictured)
  = View.Main [View.Result (to_json Sample.dream) stock_picture].
Proof.
  pose proof (the_page_shows_one_thing_per_step (fun _ => false) Sample.pictured
                pictured_reachable) as H.
  cbv zeta in H.
  change (step (App.current Sample.pictured)) with complete in H. cbv iota in H.
  destruct H as (a & url & Ha & Hu & Hview & _).
  injection Ha as <-. injection Hu as <-.
  apply Hview; [reflexivity | discriminate].
Defined.

(** X12.  The key screen is left by the click on Connect whenever the
    selection dialog does not throw, without [hasApiKey] being asked again:
    on a host without [aistudio] the click opens the application even
    when no key is configured, where the check at start-up had answered
    that none is; a dialog that throws leaves the flag as it was. *)
Theorem connecting_does_not_check_the_key h ready :
  ((forall e, Keys.selectApiKey h <> Threw e) ->
   Keys.handleApiKeySelection h ready = true) /\
  (forall e, Keys.selectApiKey h = Threw e ->
     Keys.handleApiKeySelection h ready = ready) /\
  (Keys.aistudio h = None ->
     Keys.handleApiKeySelection h ready = true /\
     Keys.checkKey h ready = truthy (Keys.API_KEY h)).
Proof.
  unfold Keys.handleApiKeySelection, Keys.checkKey, Keys.hasApiKey.
  split; [|split].
  - intros H. destruct (Keys.selectApiKey h) as [u|e]; [reflexivity|].
    destruct (H e eq_refl).
  - intros e ->. reflexivity.
  - intros Hnone. unfold Keys.selectApiKey. rewrite Hnone. split; reflexivity.
Qed.

Lemma connecting_does_not_check_the_key_witness :
  Keys.checkKey (Keys.mkHost None None) false = false /\
  Keys.handleApiKeySelection (Keys.mkHost None None) false = true.
Proof.
  destruct (connecting_does_not_check_the_key (Keys.mkHost None None) false)
    as (_ & _ & H).
  destruct (H eq_refl) as [Hclick Hcheck].
  split; [exact Hcheck | exact Hclick].
Defined.

(* ================================================================== *)
(** ** Properties of the conversation *)
(* ================================================================== *)

(** The conversation is whole exchanges, plus the question being answered. *)
Lemma reachable_conversation c :
  Dialogue.reachable c -> Dialogue.well_paired c.
Proof.
  induction 1 as [|e c c' _ IH Hfire].
  - left. repeat split. constructor.
  - destruct c as [st w]. unfold Dialogue.well_paired in *. simpl in IH.
    destruct e as [rev a|value| |outcome]; simpl in Hfire.
    + injection Hfire as <-. exact IH.
    + injection Hfire as <-. exact IH.
    + unfold ChatInterface.handleSend in Hfire.
      destruct (trim (ChatInterface.input st) =? "") eqn:Etrim;
        [injection Hfire as <-; exact IH|].
      destruct (ChatInterface.chatSessionRef st) as [session|];
        [|injection Hfire as <-; exact IH].
      destruct (ChatInterface.isLoading st) eqn:Hl;
        [injection Hfire as <-; simpl; rewrite Hl; exact IH|].
      injection Hfire as <-. simpl.
      destruct IH as [(_ & _ & Hex)|(Habs & _)]; [|discriminate].
      right. split; [reflexivity|].
      exists (ChatInterface.messages st), session, (ChatInterface.input st).
      repeat split; try assumption.
      intros Hempty. rewrite Hempty in Etrim. discriminate.
    + destruct w as [call|]; [|discriminate]. injection Hfire as <-. simpl.
      destruct IH as [(_ & Habs & _)|(_ & ms & session & text & Hex & Hms & _)];
        [discriminate|].
      left. repeat split. rewrite Hms, <- app_assoc. simpl.
      destruct outcome as [reply|e]; apply Dialogue.one_more; exact Hex.
Qed.

(** X13.  The conversation shown is always a sequence of whole exchanges
    (a user message, then a model message), followed by one more user
    message exactly while a reply is pending; that message is the text
    that was sent and is not blank.  No event removes or changes a message
    already shown, and while the send button is disabled [handleSend]
    changes nothing. *)
Theorem the_conversation_is_whole_exchanges c :
  Dialogue.reachable c ->
  Dialogue.well_paired c /\
  (forall e c', Dialogue.fire e c = Some c' ->
     exists more,
       ChatInterface.messages (Dialogue.ui c')
       = (ChatInterface.messages (Dialogue.ui c) ++ more)%list /\
       length more <= 1) /\
  (Dialogue.send_disabled (Dialogue.ui c) = true ->
     Dialogue.fire Dialogue.Send c = Some c).
Proof.
  intros Hreach. split; [exact (reachable_conversation c Hreach)|]. split.
  - intros e c' Hfire. destruct c as [st w].
    destruct e as [rev a|value| |outcome]; simpl in Hfire.
    + injection Hfire as <-. exists []. simpl. rewrite app_nil_r. split; [reflexivity | lia].
    + injection Hfire as <-. exists []. simpl. rewrite app_nil_r. split; [reflexivity | lia].
    + unfold ChatInterface.handleSend in Hfire.
      destruct (trim (ChatInterface.input st) =? "");
        [injection Hfire as <-; exists []; simpl; rewrite app_nil_r; split;
         [reflexivity | lia]|].
      destruct (ChatInterface.chatSessionRef st);
        [|injection Hfire as <-; exists []; simpl; rewrite app_nil_r; split;
          [reflexivity | lia]].
      destruct (ChatInterface.isLoading st);
        injection Hfire as <-; simpl.
      * exists []. rewrite app_nil_r. split; [reflexivity | simpl; lia].
      * eexists. split; [reflexivity | simpl; lia].
    + destruct w; [|discriminate]. injection Hfire as <-. simpl.
      eexists. split; [reflexivity | simpl; lia].
  - intros Hdis. destruct c as [st w]. simpl in *.
    unfold Dialogue.send_disabled in Hdis. unfold ChatInterface.handleSend.
    destruct (trim (ChatInterface.input st) =? ""); [reflexivity|].
    rewrite orb_false_r in Hdis. rewrite Hdis.
    destruct (ChatInterface.chatSessionRef st); reflexivity.
Qed.

Lemma the_conversation_is_whole_exchanges_witness :
  Dialogue.well_paired
    (Dialogue.mkChat Cases.asking (Some (Sample.session, "Why was I flying?"))).
Proof.
  apply (the_conversation_is_whole_exchanges
           (Dialogue.mkChat Cases.asking (Some (Sample.session, "Why was I flying?")))).
  apply (Dialogue.reach_fire Dialogue.Send
           (Dialogue.mkChat
              (ChatInterface.mkChatState [] "Why was I flying?" false (Some Sample.session))
              None)); [|reflexivity].
  apply (Dialogue.reach_fire (Dialogue.Typed "Why was I flying?")
           (Dialogue.mkChat
              (ChatInterface.mkChatState [] EmptyString false (Some Sample.session))
              None)); [|reflexivity].
  apply (Dialogue.reach_fire
           (Dialogue.SessionCreated Live Sample.dream) Dialogue.start); [|reflexivity].
  constructor.
Defined.

(** X18.  The header click does not cancel a dream in flight.  While a
    handler waits for the analysis, [reset] brings the page back to [idle]
    with everything cleared, yet the handler is still waiting; when its
    analysis arrives the application moves to [generating_image] and makes
    the image call with the resolution the handler closed over, and when
    the image arrives it is in [complete] with that analysis and image,
    although the recording was discarded and [isProcessing] is false. *)
Theorem reset_does_not_cancel_a_dream w n state blob a p url :
  nth_error (App.suspended w) n = Some (App.AwaitAnalysis state blob) ->
  Json.get a "visualPrompt" = Returned p ->
  exists w1 w2 w3,
    App.fire App.Reset w = Some w1 /\
    step (App.current w1) = idle /\ analysis (App.current w1) = None /\
    App.suspended w1 = App.suspended w /\
    App.fire (App.AnalysisSettled n (Returned a)) w1 = Some w2 /\
    step (App.current w2) = generating_image /\
    App.calls w2 = (App.calls w ++ [App.CallImage p (imageSize state)])%list /\
    App.fire (App.ImageSettled (length (App.suspended w) - 1) (Returned url)) w2 = Some w3 /\
    step (App.current w3) = complete /\
    analysis (App.current w3) = Some a /\
    imageUrl (App.current w3) = Some url /\
    audioBlob (App.current w3) = None /\
    isProcessing (App.current w3) = false.
Proof.
  intros Hwait Hget.
  assert (Hsome : nullable a = Some a).
  { destruct a; simpl in *; try reflexivity. discriminate. }
  assert (Hlen : length (firstn n (App.suspended w) ++ skipn (S n) (App.suspended w))
                 = length (App.suspended w) - 1).
  { assert (Hn : n < length (App.suspended w))
      by (apply nth_error_Some; rewrite Hwait; discriminate).
    rewrite length_app, length_firstn, length_skipn. lia. }
  eexists _, _, _. split; [reflexivity|].
  split; [reflexivity|]. split; [reflexivity|]. split; [reflexivity|].
  split.
  { simpl. rewrite Hwait. reflexivity. }
  unfold App.after_analysis. rewrite Hget. simpl.
  split; [reflexivity|]. split; [reflexivity|].
  split.
  { rewrite <- Hlen, nth_error_snoc. reflexivity. }
  simpl. rewrite Hsome. repeat split.
Qed.

Lemma reset_does_not_cancel_a_dream_witness :
  exists w3,
    App.run [App.Reset;
             App.AnalysisSettled 0 (Returned (to_json Sample.dream));
             App.ImageSettled 0 (Returned stock_picture)]
            Sample.handed_over = Some w3 /\
    step (App.current w3) = complete /\
    audioBlob (App.current w3) = None.
Proof.
  destruct (reset_does_not_cancel_a_dream
              Sample.handed_over 0 App.initial Sample.recording
              (to_json Sample.dream) (Some (JString (visualPrompt Sample.dream)))
              stock_picture eq_refl eq_refl)
    as (w1 & w2 & w3 & H1 & _ & _ & _ & H2 & _ & _ & H3 & Hstep & _ & _ & Hblob & _).
  exists w3. split; [|split; assumption].
  change (length (App.suspended Sample.handed_over) - 1) with 0 in H3.
  cbn [App.run]. rewrite H1, H2, H3. reflexivity.
Defined.
